(** * isucon13 benchmarker entry point and webapp user handler

    A shallow embedding of
    - [bench/cmd/bench/bench.go]: [uniqueMsgs], [dumpFailedResult], the
      [run] command's [Action], and [Client.Initialize];
    - [webapp/php/src/User/Handler.php]: [registerHandler],
      [getIconHandler], [postIconHandler] and [getMeHandler].

    Go strings are byte strings, as Rocq's [string] is; [int64] values are
    [Z]; Go maps are [gmap]; every call that leaves the two files (loggers,
    scenario phases, counters, JSON, the file system, PDO) is answered by an
    explicit record of outcomes, and the calls the properties speak about are
    recorded, in program order, in a trace of events. *)

From Stdlib Require Import Ascii String.
From stdpp Require Import gmap strings list fin_maps pretty.

Open Scope string_scope.
Open Scope list_scope.
Open Scope Z_scope.

(** ** Go's [strings] and [fmt] pieces used by the report *)

(** [len(s)] of a Go string is its number of bytes. *)
Definition len (s : string) : nat := String.length s.

(** [s[i:]] for [i <= len(s)]. *)
Fixpoint slice_from (i : nat) (s : string) : string :=
  match i, s with
  | O, _ => s
  | S i', String _ s' => slice_from i' s'
  | S _, EmptyString => EmptyString
  end.

(** [strings.HasSuffix]:
    [len(s) >= len(suffix) && s[len(s)-len(suffix):] == suffix]. *)
Definition HasSuffix (s suffix : string) : bool :=
  (len suffix <=? len s)%nat &&
  bool_decide (slice_from (len s - len suffix) s = suffix).

(** ** [uniqueMsgs] *)

(** One iteration of [for _, msg := range msgs]: the state is the local map
    [dedup] and the result slice [uniqMsgs]. *)
Definition uniqueMsgs_step (st : gmap string () * list string) (msg : string)
  : gmap string () * list string :=
  match st.1 !! msg with
  | Some _ => st
  | None => (<[msg := ()]> st.1, st.2 ++ [msg])
  end.

Definition uniqueMsgs_loop (msgs : list string)
  : gmap string () * list string :=
  foldl uniqueMsgs_step (∅, []) msgs.

Definition uniqueMsgs (msgs : list string) : list string :=
  (uniqueMsgs_loop msgs).2.

(** The reading of "deduplicate by exact text, preserving first-seen order"
    as a function on lists: keep the head, drop its later copies. *)
Fixpoint dedup_first_seen (msgs : list string) : list string :=
  match msgs with
  | [] => []
  | m :: rest => m :: filter (λ m', m' ≠ m) (dedup_first_seen rest)
  end.

(** ** The scenario counter report *)

(** The three [lgr.Infof] formats of the scenario loop. *)
Inductive ScenarioLine :=
| FailedScenario (name : string) (count : Z)
    (* "[失敗シナリオ %s] %d 回失敗" *)
| SucceededAndFailed (name : string) (count failCount : Z)
    (* "[シナリオ %s] %d 回成功, %d 回失敗" *)
| Executed (name : string) (count : Z).
    (* "[シナリオ %s] %d 回実行" *)

(** The body of [for name, count := range scenarioCounter]. *)
Definition scenarioLine (scenarioCounter : gmap string Z)
    (name : string) (count : Z) : ScenarioLine :=
  if HasSuffix name "-fail" then FailedScenario name count
  else
    let failKey := name +:+ "-fail" in
    match scenarioCounter !! failKey with
    | Some failCount => SucceededAndFailed name count failCount
    | None => Executed name count
    end.

(** The whole loop.  Go ranges over a map in an unspecified order; the order
    of [map_to_list] stands for one such order, and the statements below
    speak about membership only. *)
Definition scenarioReport (scenarioCounter : gmap string Z)
  : list ScenarioLine :=
  (λ kv, scenarioLine scenarioCounter kv.1 kv.2) <$> map_to_list scenarioCounter.

(** A report that is driven by registered (successTag, failTag) pairs, for
    comparison with [scenarioLine]: a tag is a failure counterpart exactly
    when some registration names it as its failTag, and a success tag is
    reported with the count of its registered failTag. *)
Fixpoint registeredFail (pairs : list (string * string)) (name : string)
  : bool :=
  match pairs with
  | [] => false
  | (_, failTag) :: rest =>
      bool_decide (failTag = name) || registeredFail rest name
  end.

Fixpoint registeredFailOf (pairs : list (string * string)) (name : string)
  : option string :=
  match pairs with
  | [] => None
  | (successTag, failTag) :: rest =>
      if bool_decide (successTag = name) then Some failTag
      else registeredFailOf rest name
  end.

Definition scenarioLineByPairs (pairs : list (string * string))
    (scenarioCounter : gmap string Z) (name : string) (count : Z)
  : ScenarioLine :=
  if registeredFail pairs name then FailedScenario name count
  else
    match registeredFailOf pairs name with
    | Some failTag =>
        match scenarioCounter !! failTag with
        | Some failCount => SucceededAndFailed name count failCount
        | None => Executed name count
        end
    | None => Executed name count
    end.

(** ** Errors, results and the world outside [bench.go] *)

(** A Go [error] is kept as its message; [nil] is [None]. *)
Definition error : Type := string.

Record BenchResult := {
  Pass : bool;              (* `json:"pass"` *)
  Score : Z;                (* int64, `json:"score"` *)
  Messages : list string;   (* `json:"messages"` *)
  Language : string;        (* `json:"language"` *)
}.

Record InitializeResponse := { IR_Language : string }.

Record HTTPResponse := { StatusCode : Z; Body : string }.

(** What the HTTP agent and the JSON decoder answer to [Client.Initialize]. *)
Record AgentWorld := {
  newRequest_err : option error;           (* c.agent.NewRequest *)
  do_result : HTTPResponse + error;        (* c.agent.Do *)
  (* json.NewDecoder(resp.Body).Decode(&initializeResp): the value left in
     the pointer [initializeResp] (nil is [None]) and the decoder's error *)
  json_Decode : string → option InitializeResponse * option error;
}.

Definition StatusOK : Z := 200.

(** [Client.Initialize].  The decoder's error is dropped: the [err] tested
    after [Decode] is the variable assigned by [c.agent.Do], which is nil on
    this path. *)
Definition Initialize (a : AgentWorld)
  : option InitializeResponse * option error :=
  match newRequest_err a with
  | Some err => (None, Some err)
  | None =>
    match do_result a with
    | inr err => (None, Some ("initializeのリクエストに失敗しました " +:+ err))
    | inl resp =>
      let err : option error := None in
      if bool_decide (StatusCode resp ≠ StatusOK)
      then (None, Some "initializeのステータスが200ではありません")
      else
        let initializeResp := (json_Decode a (Body resp)).1 in
        match err with
        | Some e =>
            (None, Some ("initializeのJSONのdecodeに失敗しました " +:+ e))
        | None => (initializeResp, None)
        end
    end
  end.

(** The four counter tags [run] reads through [benchscore.GetByTag]. *)
Inductive ScoreTag := TooSlow | TooManySpam | DNSResolve | DNSFailed.

(** [resolver.DNSResolver], as far as [run] touches it. *)
Record DNSResolver := { ResolveAttempts : Z }.

(** Answers of everything [run] calls outside [bench.go]. *)
Record World := {
  w_staffLogger_err : option error;        (* logger.InitStaffLogger *)
  w_contestantLogger_err : option error;   (* logger.InitContestantLogger *)
  w_pretestOnly : bool;                    (* --pretest-only *)
  w_language : string;                     (* config.Language at start *)
  w_resultPath : string;                   (* config.ResultPath *)
  w_newClient_err : option error;          (* isupipe.NewClient *)
  w_agent : AgentWorld;
  w_defaultResolveAttempts : Z;            (* set by resolver.NewDNSResolver *)
  w_pretest_err : option error;            (* scenario.Pretest *)
  w_benchRun_err : option error;           (* benchmarker.run *)
  w_finalcheck_err : option error;         (* scenario.FinalcheckScenario *)
  w_finalErrorMessages : list (list string); (* bencherror.GetFinalErrorMessages,
                                                values in the order ranged *)
  w_scenarioCounter : gmap string Z;       (* benchmarker.ScenarioCounter *)
  w_getByTag : ScoreTag → Z;               (* benchscore.GetByTag *)
  w_totalProfit : Z;                       (* benchscore.GetTotalProfit *)
  w_marshal_err : BenchResult → option error; (* json.Marshal *)
  w_writeFile_err : option error;          (* os.WriteFile *)
}.

(** The calls of [run] that the properties are about, in program order. *)
Inductive Event :=
| EStdoutResult (r : BenchResult)  (* fmt.Println(string(b)), b the JSON of r *)
| EStdoutFallback                  (* the Printf of dumpFailedResult when
                                      Marshal fails: pass false, score 0, one
                                      message, no language *)
| ENewClient
| EInitialize
| EInitCounter                     (* benchscore.InitCounter *)
| EInitErrors                      (* bencherror.InitErrors *)
| EPretest (r : DNSResolver)       (* scenario.Pretest *)
| ENewBenchmarker
| EBenchmarkerRun                  (* benchmarker.run: the workers *)
| EDoneCounter                     (* benchscore.DoneCounter *)
| EErrorsDone                      (* bencherror.Done *)
| EFinalcheck (r : DNSResolver)    (* scenario.FinalcheckScenario *)
| EGetFinalErrorMessages
| EScenarioCounter
| EScenarioLog (l : ScenarioLine)
| EGetByTag (tag : ScoreTag)
| EGetTotalProfit
| EWriteFile (path : string) (r : BenchResult). (* os.WriteFile(path, b, _) *)

(** How [Action] ends: [return nil], [return cli.NewExitError(err, code)], or
    the run-time panic of [initializeResp.Language] on a nil pointer. *)
Inductive Outcome :=
| ReturnNil
| ExitError (err : error) (exitCode : Z)
| NilDereference.

(** ** A trace-and-early-return monad for [Action] *)

Definition Run (A : Type) : Type := list Event * (A + Outcome).

#[global] Instance Run_ret : MRet Run := λ A a, ([], inl a).

#[global] Instance Run_bind : MBind Run := λ A B f m,
  match m with
  | (t, inl a) => let '(t', r) := f a in (t ++ t', r)
  | (t, inr o) => (t, inr o)
  end.

Definition emit (e : Event) : Run () := ([e], inl ()).
Definition emits (es : list Event) : Run () := (es, inl ()).
Definition leave {A} (o : Outcome) : Run A := ([], inr o).

(** The trace and the outcome of a finished [Action]. *)
Definition finish (m : Run Outcome) : list Event * Outcome :=
  (m.1, match m.2 with inl o => o | inr o => o end).

(** ** [dumpFailedResult] and [run] *)

Definition dumpFailedResult (w : World) (language : string)
    (msgs : list string) : Run () :=
  let r := {| Pass := false; Score := 0; Messages := msgs;
              Language := language |} in
  match w_marshal_err w r with
  | Some _ => emit EStdoutFallback
  | None => emit (EStdoutResult r)
  end.

(** [resolver.NewDNSResolver()]. *)
Definition NewDNSResolver (w : World) : DNSResolver :=
  {| ResolveAttempts := w_defaultResolveAttempts w |}.

(** [r.ResolveAttempts = n]. *)
Definition set_ResolveAttempts (n : Z) (r : DNSResolver) : DNSResolver :=
  {| ResolveAttempts := n |}.

(** The report part of [Action], from the error summary to the end. *)
Definition report (w : World) (language : string) : Run Outcome :=
  emit EGetFinalErrorMessages ;;
  let benchErrors := uniqueMsgs (concat (w_finalErrorMessages w)) in
  let msgs : list string := [] in
  emit EScenarioCounter ;;
  let scenarioCounter := w_scenarioCounter w in
  emits (EScenarioLog <$> scenarioReport scenarioCounter) ;;
  emit (EGetByTag TooSlow) ;;
  emit (EGetByTag TooManySpam) ;;
  emit (EGetByTag DNSResolve) ;;
  let numResolves := w_getByTag w DNSResolve in
  emit (EGetByTag DNSFailed) ;;
  let msgs := msgs ++ ["名前解決成功数 " +:+ pretty numResolves] in
  emit EGetTotalProfit ;;
  let profit := w_totalProfit w in
  let msgs := msgs ++ ["売上: " +:+ pretty profit] in
  let r := {| Pass := true; Score := profit;
              Messages := benchErrors ++ msgs; Language := language |} in
  match w_marshal_err w r with
  | Some err => leave (ExitError err 1)
  | None =>
    emit (EWriteFile (w_resultPath w) r) ;;
    match w_writeFile_err w with
    | Some err => leave (ExitError err 1)
    | None => mret ReturnNil
    end
  end.

(** The timed phase and the final check. *)
Definition benchmark (w : World) (language : string) : Run Outcome :=
  emit EInitCounter ;;
  emit EInitErrors ;;
  emit ENewBenchmarker ;;
  emit EBenchmarkerRun ;;
  match w_benchRun_err w with
  | Some _ => dumpFailedResult w language []
  | None => mret ()
  end ;;
  emit EDoneCounter ;;
  emit EErrorsDone ;;
  let finalcheckDNSResolver := NewDNSResolver w in
  let finalcheckDNSResolver := set_ResolveAttempts 10 finalcheckDNSResolver in
  emit (EFinalcheck finalcheckDNSResolver) ;;
  match w_finalcheck_err w with
  | Some err =>
      dumpFailedResult w language [] ;;
      leave (ExitError err 1)
  | None => report w language
  end.

(** [run.Action] from the webapp initialisation on. *)
Definition initialized (w : World) : Run Outcome :=
  let language := w_language w in
  emit ENewClient ;;
  match w_newClient_err w with
  | Some err =>
      dumpFailedResult w language ["webapp初期化クライアント生成が失敗しました"] ;;
      leave (ExitError err 1)
  | None =>
    emit EInitialize ;;
    let '(initializeResp, err) := Initialize (w_agent w) in
    match err with
    | Some e =>
        dumpFailedResult w language ["初期化が失敗しました"] ;;
        leave (ExitError ("初期化が失敗しました: " +:+ e) 1)
    | None =>
      match initializeResp with
      | None => leave NilDereference
      | Some resp =>
        let language := IR_Language resp in
        let pretestDNSResolver := NewDNSResolver w in
        let pretestDNSResolver := set_ResolveAttempts 10 pretestDNSResolver in
        match err with
        | Some e =>
            dumpFailedResult w language
              ["整合性チェックDNSリゾルバ生成に失敗しました"] ;;
            leave (ExitError e 1)
        | None =>
          emit EInitCounter ;;
          emit EInitErrors ;;
          emit (EPretest pretestDNSResolver) ;;
          match w_pretest_err w with
          | Some err =>
              dumpFailedResult w language ["整合性チェックに失敗しました"] ;;
              leave (ExitError err 1)
          | None =>
            if w_pretestOnly w then mret ReturnNil
            else benchmark w language
          end
        end
      end
    end
  end.

(** [run.Action].  The log lines, and the SSL branch that only rewrites the
    target URL in [config], do not decide which calls follow and are left
    out. *)
Definition Action (w : World) : Run Outcome :=
  match w_staffLogger_err w with
  | Some err => leave (ExitError err 1)
  | None =>
    match w_contestantLogger_err w with
    | Some err => leave (ExitError err 1)
    | None => initialized w
    end
  end.

(** The run as seen from outside: its trace and how it ended. *)
Definition run (w : World) : list Event * Outcome := finish (Action w).

(** ** Reading traces *)

(** The records a trace hands to the outside: on standard output and in the
    result file. *)
Definition emitted (e : Event) : option BenchResult :=
  match e with
  | EStdoutResult r => Some r
  | EWriteFile _ r => Some r
  | _ => None
  end.

Definition records (t : list Event) : list BenchResult := omap emitted t.

Definition written (e : Event) : option BenchResult :=
  match e with EWriteFile _ r => Some r | _ => None end.

(** The records written to the result file. *)
Definition resultFile (t : list Event) : list BenchResult := omap written t.

(** A failure verdict on standard output: pass false and score 0. *)
Definition failureEmission (e : Event) : Prop :=
  match e with
  | EStdoutFallback => True
  | EStdoutResult r => Pass r = false ∧ Score r = 0
  | _ => False
  end.

(** The state of the counter registry along a trace: [InitCounter] opens
    it, [DoneCounter] freezes it. *)
Inductive RegistryPhase := Uninitialised | Active | Frozen.

Definition registryStep (p : RegistryPhase) (e : Event) : RegistryPhase :=
  match e with
  | EInitCounter => Active
  | EDoneCounter => Frozen
  | _ => p
  end.

Definition registryPhase (t : list Event) : RegistryPhase :=
  foldl registryStep Uninitialised t.

(** The reads of counters that feed the report. *)
Definition isCounterRead (e : Event) : bool :=
  match e with
  | EScenarioCounter | EGetByTag _ | EGetTotalProfit => true
  | _ => false
  end.

(** Does every counter read of [t] happen while the registry, in phase [p]
    before [t], is frozen? *)
Fixpoint readsFrozen (p : RegistryPhase) (t : list Event) : bool :=
  match t with
  | [] => true
  | e :: t' =>
      (if isCounterRead e
       then match p with Frozen => true | _ => false end
       else true)
      && readsFrozen (registryStep p e) t'
  end.

(** The conditions under which [Action] gets as far as [scenario.Pretest],
    and as far as [scenario.FinalcheckScenario]. *)
Definition pretestReached (w : World) : Prop :=
  w_staffLogger_err w = None ∧
  w_contestantLogger_err w = None ∧
  w_newClient_err w = None ∧
  ∃ resp, Initialize (w_agent w) = (Some resp, None).

Definition finalcheckReached (w : World) : Prop :=
  pretestReached w ∧ w_pretest_err w = None ∧ w_pretestOnly w = false.

(** The two lines [Action] appends to the deduplicated error messages. *)
Definition summaryMsgs (w : World) : list string :=
  ["名前解決成功数 " +:+ pretty (w_getByTag w DNSResolve);
   "売上: " +:+ pretty (w_totalProfit w)].

(** *** Sample worlds *)

(** A target that answers /api/initialize with 200 and a decodable body. *)
Definition agent_ok : AgentWorld :=
  {| newRequest_err := None;
     do_result := inl {| StatusCode := 200; Body := "{}" |};
     json_Decode := λ _, (Some {| IR_Language := "go" |}, None) |}.

(** A target that answers 200 with a body that is not JSON. *)
Definition agent_garbled : AgentWorld :=
  {| newRequest_err := None;
     do_result := inl {| StatusCode := 200; Body := "<html>" |};
     json_Decode := λ _, (None, Some "invalid character '<'") |}.

Definition sampleCounter : gmap string Z :=
  <["reserve-fail" := 2]> (<["reserve" := 5]> (<["tip" := 7]> ∅)).

(** A run in which every phase succeeds. *)
Definition world_ok : World :=
  {| w_staffLogger_err := None; w_contestantLogger_err := None;
     w_pretestOnly := false; w_language := "";
     w_resultPath := "/tmp/result.json"; w_newClient_err := None;
     w_agent := agent_ok; w_defaultResolveAttempts := 2;
     w_pretest_err := None; w_benchRun_err := None;
     w_finalcheck_err := None;
     w_finalErrorMessages := [["a"; "b"]; ["a"; "c"; "b"]];
     w_scenarioCounter := sampleCounter;
     w_getByTag := λ _, 3; w_totalProfit := 100;
     w_marshal_err := λ _, None; w_writeFile_err := None |}.

Definition with_pretest_err (e : option error) (w : World) : World :=
  {| w_staffLogger_err := w_staffLogger_err w;
     w_contestantLogger_err := w_contestantLogger_err w;
     w_pretestOnly := w_pretestOnly w; w_language := w_language w;
     w_resultPath := w_resultPath w; w_newClient_err := w_newClient_err w;
     w_agent := w_agent w;
     w_defaultResolveAttempts := w_defaultResolveAttempts w;
     w_pretest_err := e; w_benchRun_err := w_benchRun_err w;
     w_finalcheck_err := w_finalcheck_err w;
     w_finalErrorMessages := w_finalErrorMessages w;
     w_scenarioCounter := w_scenarioCounter w;
     w_getByTag := w_getByTag w; w_totalProfit := w_totalProfit w;
     w_marshal_err := w_marshal_err w; w_writeFile_err := w_writeFile_err w |}.

Definition with_finalcheck_err (e : option error) (w : World) : World :=
  {| w_staffLogger_err := w_staffLogger_err w;
     w_contestantLogger_err := w_contestantLogger_err w;
     w_pretestOnly := w_pretestOnly w; w_language := w_language w;
     w_resultPath := w_resultPath w; w_newClient_err := w_newClient_err w;
     w_agent := w_agent w;
     w_defaultResolveAttempts := w_defaultResolveAttempts w;
     w_pretest_err := w_pretest_err w; w_benchRun_err := w_benchRun_err w;
     w_finalcheck_err := e;
     w_finalErrorMessages := w_finalErrorMessages w;
     w_scenarioCounter := w_scenarioCounter w;
     w_getByTag := w_getByTag w; w_totalProfit := w_totalProfit w;
     w_marshal_err := w_marshal_err w; w_writeFile_err := w_writeFile_err w |}.

Definition with_pretestOnly (b : bool) (w : World) : World :=
  {| w_staffLogger_err := w_staffLogger_err w;
     w_contestantLogger_err := w_contestantLogger_err w;
     w_pretestOnly := b; w_language := w_language w;
     w_resultPath := w_resultPath w; w_newClient_err := w_newClient_err w;
     w_agent := w_agent w;
     w_defaultResolveAttempts := w_defaultResolveAttempts w;
     w_pretest_err := w_pretest_err w; w_benchRun_err := w_benchRun_err w;
     w_finalcheck_err := w_finalcheck_err w;
     w_finalErrorMessages := w_finalErrorMessages w;
     w_scenarioCounter := w_scenarioCounter w;
     w_getByTag := w_getByTag w; w_totalProfit := w_totalProfit w;
     w_marshal_err := w_marshal_err w; w_writeFile_err := w_writeFile_err w |}.

(** The pretest fails against an otherwise healthy target. *)
Definition world_pretest_fails : World :=
  with_pretest_err (Some "pretest: icon mismatch") world_ok.

(** The timed phase earns 100, then the final check fails. *)
Definition world_finalcheck_fails : World :=
  with_finalcheck_err (Some "finalcheck: reservation lost") world_ok.

(** A healthy run started with --pretest-only. *)
Definition world_pretest_only : World := with_pretestOnly true world_ok.

(** ** The order of the phases *)

(** The record [Action] marshals at the end of a passing run. *)
Definition passingResult (w : World) (language : string) : BenchResult :=
  {| Pass := true; Score := w_totalProfit w;
     Messages := uniqueMsgs (concat (w_finalErrorMessages w)) ++ summaryMsgs w;
     Language := language |}.

(** How far a trace has come: the state of the counter registry and which
    phases have been started. *)
Record Progress := {
  regPhase : RegistryPhase;
  pretested : bool;
  benchmarked : bool;
  finalchecked : bool;
}.

Definition noProgress : Progress :=
  {| regPhase := Uninitialised; pretested := false; benchmarked := false;
     finalchecked := false |}.

Definition progressStep (p : Progress) (e : Event) : Progress :=
  {| regPhase := registryStep (regPhase p) e;
     pretested := match e with EPretest _ => true | _ => pretested p end;
     benchmarked := match e with EBenchmarkerRun => true | _ => benchmarked p end;
     finalchecked := match e with EFinalcheck _ => true | _ => finalchecked p end |}.

Definition progress (t : list Event) : Progress := foldl progressStep noProgress t.

(** What must hold when [e] happens after a trace that has come as far as
    [p]: the pretest and the timed phase need an active registry, the timed
    phase comes after the pretest, the final check after the timed phase and
    the freeze, the result file after the final check; no phase is started
    twice. *)
Definition phaseGuard (p : Progress) (e : Event) : bool :=
  match e with
  | EPretest _ =>
      match regPhase p with Active => negb (pretested p) | _ => false end
  | EBenchmarkerRun =>
      match regPhase p with
      | Active => pretested p && negb (benchmarked p)
      | _ => false
      end
  | EFinalcheck _ =>
      match regPhase p with
      | Frozen => benchmarked p && negb (finalchecked p)
      | _ => false
      end
  | EWriteFile _ _ => finalchecked p
  | _ => true
  end.

Fixpoint phasesOrdered (p : Progress) (t : list Event) : bool :=
  match t with
  | [] => true
  | e :: t' => phaseGuard p e && phasesOrdered (progressStep p e) t'
  end.

(** *** More sample worlds *)

(** A target that refuses /api/initialize. *)
Definition agent_refusing : AgentWorld :=
  {| newRequest_err := None;
     do_result := inl {| StatusCode := 500; Body := "" |};
     json_Decode := λ _, (None, Some "EOF") |}.

(** [world_ok] with another target and another outcome of the timed
    phase. *)
Definition world_with (a : AgentWorld) (benchRun_err : option error) : World :=
  {| w_staffLogger_err := None; w_contestantLogger_err := None;
     w_pretestOnly := false; w_language := "";
     w_resultPath := "/tmp/result.json"; w_newClient_err := None;
     w_agent := a; w_defaultResolveAttempts := 2;
     w_pretest_err := None; w_benchRun_err := benchRun_err;
     w_finalcheck_err := None;
     w_finalErrorMessages := [["a"; "b"]; ["a"; "c"; "b"]];
     w_scenarioCounter := sampleCounter;
     w_getByTag := λ _, 3; w_totalProfit := 100;
     w_marshal_err := λ _, None; w_writeFile_err := None |}.

(** The timed phase reports an error, everything else succeeds. *)
Definition world_bench_error : World :=
  world_with agent_ok (Some "benchmarker: worker failed").

(** The target answers 200 with a body that does not decode. *)
Definition world_garbled : World := world_with agent_garbled None.

(** The target answers 500 to /api/initialize. *)
Definition world_refused : World := world_with agent_refusing None.

(** ** What reaches the outside *)







(** ** The counter registry *)

Module CounterRegistry.

(** Modelled from the spec: the package [benchscore] (InitCounter,
    DoneCounter, GetByTag, GetTotalProfit and the increments the scenarios
    make) is not part of the two files.  The registry below follows the
    description of CounterRegistry: a closed set of tags with a count each,
    a weight table for the revenue tags, and an active flag. [Init] zeroes
    the counters and fails while active; [Increment] adds [delta] to a
    known tag while active, is discarded and flagged after [Done], and
    rejects unknown tags; [Done] freezes. *)
Record t := {
  counts : gmap string Z;    (* one entry per tag of the closed set *)
  weights : gmap string Z;   (* revenue tags and their weights *)
  active : bool;
  anomalies : nat;           (* late increments seen *)
}.

Inductive Accepted := Counted | Discarded | Rejected.

Definition Init (r : t) : option t :=
  if active r then None
  else Some {| counts := (λ _, 0) <$> counts r; weights := weights r;
               active := true; anomalies := 0 |}.

Definition Increment (tag : string) (delta : Z) (r : t) : t * Accepted :=
  match counts r !! tag with
  | None => (r, Rejected)
  | Some n =>
    if active r
    then ({| counts := <[tag := n + delta]> (counts r);
             weights := weights r; active := true;
             anomalies := anomalies r |}, Counted)
    else ({| counts := counts r; weights := weights r; active := false;
             anomalies := S (anomalies r) |}, Discarded)
  end.

Definition Done (r : t) : t :=
  {| counts := counts r; weights := weights r; active := false;
     anomalies := anomalies r |}.

Definition GetByTag (tag : string) (r : t) : Z :=
  default 0 (counts r !! tag).

Definition GetTotalProfit (r : t) : Z :=
  map_fold (λ tag weight acc, acc + weight * GetByTag tag r) 0 (weights r).

(** A sequence of increments, as workers or a late scenario issue them. *)
Definition increments (ops : list (string * Z)) (r : t) : t :=
  foldl (λ r op, (Increment op.1 op.2 r).1) r ops.

End CounterRegistry.

(** ** [IsuPipe\User\Handler] *)

Module UserHandler.

Definition BCRYPT_DEFAULT_COST : Z := 4.

(** Rows of the tables [users], [themes] and [icons]. *)
Record UserModel := {
  id : Z;
  name : string;
  displayName : string;
  description : string;
  hashedPassword : string;
}.

Record ThemeModel := { theme_userId : Z; darkMode : bool }.

Record IconRow := { icon_userId : Z; image : string }.

(** The PDO connection: the tables as this connection sees them, whether a
    transaction is open, and the auto-increment counter of [users]. *)
Record DB := {
  users : list UserModel;
  themes : list ThemeModel;
  icons : list IconRow;
  inTransaction : bool;
  usersAutoIncrement : Z;
}.

(** What the handler leaves behind: the connection and the external
    commands it ran ([pdnsutil add-record ...]). *)
Record State := { db : DB; commands : list (list string) }.

Record PostUserRequest := {
  req_name : string;
  req_displayName : string;
  req_description : string;
  req_password : string;
  req_darkMode : bool;       (* $req->theme->darkMode *)
}.

(** A PSR-7 response, as far as the handlers touch it. *)
Record Response := {
  statusCode : Z;
  headers : list (string * string);
  body : string;
}.

(** The exceptions that leave a handler. *)
Inductive HttpException :=
| HttpBadRequestException (message : string)
| HttpInternalServerErrorException (message : string)
| HttpNotFoundException (message : string)
| SessionException (message : string)   (* thrown by verifyUserSession *)
| UncaughtPDOException.                  (* beginTransaction inside one *)

(** The statements that sit in a [try { ... } catch (PDOException $e)]. *)
Inductive Statement :=
| SelectUserByName | SelectIconByUserId | InsertUser | InsertTheme.

(** Header names compare without case in PSR-7. *)
Definition lower (c : ascii) : ascii :=
  let n := nat_of_ascii c in
  if ((65 <=? n) && (n <=? 90))%nat then ascii_of_nat (n + 32) else c.

Fixpoint lowercase (s : string) : string :=
  match s with
  | EmptyString => EmptyString
  | String c s' => String (lower c) (lowercase s')
  end.

Definition sameHeader (a b : string) : bool :=
  bool_decide (lowercase a = lowercase b).

(** [$response->withHeader($name, $value)]: replaces the header. *)
Definition withHeader (name value : string) (r : Response) : Response :=
  {| statusCode := statusCode r;
     headers := filter (λ h, sameHeader h.1 name = false) (headers r)
                  ++ [(name, value)];
     body := body r |}.

Definition getHeader (name : string) (r : Response) : list string :=
  snd <$> filter (λ h, sameHeader h.1 name = true) (headers r).

(** [$response->getBody()->write($s)]. *)
Definition write (s : string) (r : Response) : Response :=
  {| statusCode := statusCode r; headers := headers r;
     body := body r +:+ s |}.

(** PHP's truth value of a string, as [?:] tests it. *)
Definition truthy (s : string) : bool :=
  negb (bool_decide (s = "") || bool_decide (s = "0")).

Section Handler.

(** The user as [fillUserResponse] renders it; the trait is not in
    [Handler.php]. *)
Variable User : Type.

(** Everything the handler reaches outside [Handler.php]. *)
Record Env := {
  verifyUserSession : option HttpException;  (* [Some e]: throws e *)
  pdoFails : Statement → bool;               (* throws PDOException *)
  nameMatches : string → string → bool;      (* [name = ?] in MySQL *)
  fallbackImage : option string;  (* file_get_contents(FALLBACK_IMAGE);
                                     [None] is PHP's false *)
  fromJson : string → option PostUserRequest; (* [None]: throws
                                     UnexpectedValueException *)
  password_hash : string → Z → string;
  powerDNSSubdomainAddress : string;
  execCommand : list string → option string; (* [Some m]: throws
                                     RuntimeException with message m *)
  fillUserResponse : UserModel → DB → option User; (* [None]: throws
                                     RuntimeException *)
  jsonResponse : Response → User → Z → Response;
}.

Variable env : Env.

(** [PDO::beginTransaction] throws when a transaction is already open. *)
Definition beginTransaction (d : DB) : option DB :=
  if inTransaction d then None
  else Some {| users := users d; themes := themes d; icons := icons d;
               inTransaction := true;
               usersAutoIncrement := usersAutoIncrement d |}.

Definition commit (d : DB) : DB :=
  {| users := users d; themes := themes d; icons := icons d;
     inTransaction := false;
     usersAutoIncrement := usersAutoIncrement d |}.

(** [SELECT * FROM users WHERE name = ?] then [fetch()]. *)
Definition selectUserByName (username : string) (d : DB)
  : option UserModel :=
  List.find (λ u, nameMatches env (name u) username) (users d).

(** [SELECT image FROM icons WHERE user_id = ?] then [fetchColumn()]. *)
Definition selectIconByUserId (userId : Z) (d : DB) : option string :=
  image <$> List.find (λ i, bool_decide (icon_userId i = userId)) (icons d).

Definition getIconHandler (d : DB) (params : gmap string string)
    (response : Response) : DB * (Response + HttpException) :=
  let username := default "" (params !! "username") in
  match verifyUserSession env with
  | Some e => (d, inr e)
  | None =>
    match beginTransaction d with
    | None => (d, inr UncaughtPDOException)
    | Some d =>
      if pdoFails env SelectUserByName
      then (d, inr (HttpInternalServerErrorException "failed to get user"))
      else
        match selectUserByName username d with
        | None =>
            (d, inr (HttpNotFoundException
                       "not found user that has the given username"))
        | Some user =>
          if pdoFails env SelectIconByUserId
          then (d, inr (HttpInternalServerErrorException
                          "failed to get user icon"))
          else
            let image := selectIconByUserId (id user) d in
            let image :=
              match image with
              | Some i => inl i
              | None =>
                match fallbackImage env with
                | Some contents =>
                    if truthy contents then inl contents
                    else inr (HttpInternalServerErrorException
                                "failed to read fallback image")
                | None => inr (HttpInternalServerErrorException
                                 "failed to read fallback image")
                end
              end in
            match image with
            | inr e => (d, inr e)
            | inl image =>
                let response := write image response in
                (d, inl (withHeader "Content-Type" "image/jpeg" response))
            end
        end
    end
  end.

Definition insertUser (u : UserModel) (d : DB) : DB * Z :=
  let userId := usersAutoIncrement d in
  ({| users := users d ++ [ {| id := userId; name := name u;
                               displayName := displayName u;
                               description := description u;
                               hashedPassword := hashedPassword u |} ];
      themes := themes d; icons := icons d;
      inTransaction := inTransaction d;
      usersAutoIncrement := userId + 1 |}, userId).

Definition insertTheme (t : ThemeModel) (d : DB) : DB :=
  {| users := users d; themes := themes d ++ [t]; icons := icons d;
     inTransaction := inTransaction d;
     usersAutoIncrement := usersAutoIncrement d |}.

Definition registerHandler (st : State) (requestBody : string)
    (response : Response) : State * (Response + HttpException) :=
  match fromJson env requestBody with
  | None =>
      (st, inr (HttpBadRequestException
                  "failed to decode the request body as json"))
  | Some req =>
    if bool_decide (req_name req = "pipe")
    then (st, inr (HttpBadRequestException
                     "the username 'pipe' is reserved"))
    else
      let hashedPassword :=
        password_hash env (req_password req) BCRYPT_DEFAULT_COST in
      match beginTransaction (db st) with
      | None => (st, inr UncaughtPDOException)
      | Some d =>
        let userModel := {| id := 0; name := req_name req;
                            displayName := req_displayName req;
                            description := req_description req;
                            hashedPassword := hashedPassword |} in
        if pdoFails env InsertUser
        then ({| db := d; commands := commands st |},
              inr (HttpInternalServerErrorException "failed to insert user"))
        else
          let '(d, userId) := insertUser userModel d in
          let userModel := {| id := userId; name := name userModel;
                              displayName := displayName userModel;
                              description := description userModel;
                              hashedPassword := hashedPassword |} in
          let themeModel := {| theme_userId := userId;
                               darkMode := req_darkMode req |} in
          if pdoFails env InsertTheme
          then ({| db := d; commands := commands st |},
                inr (HttpInternalServerErrorException
                       "failed to insert user theme"))
          else
            let d := insertTheme themeModel d in
            let command := ["pdnsutil"; "add-record"; "u.isucon.dev";
                            req_name req; "A"; "30";
                            powerDNSSubdomainAddress env] in
            match execCommand env command with
            | Some message =>
                ({| db := d; commands := commands st |},
                 inr (HttpInternalServerErrorException message))
            | None =>
              let cmds := commands st ++ [command] in
              match fillUserResponse env userModel d with
              | None =>
                  ({| db := d; commands := cmds |},
                   inr (HttpInternalServerErrorException
                          "failed to fill user"))
              | Some user =>
                  ({| db := commit d; commands := cmds |},
                   inl (jsonResponse env response user 201))
              end
            end
      end
  end.

End Handler.

(** *** Sample data *)

Definition req_pipe : PostUserRequest :=
  {| req_name := "pipe"; req_displayName := "Pipe"; req_description := "";
     req_password := "s3cret"; req_darkMode := true |}.

(** A healthy environment: valid session, no PDO failure, a readable
    fallback image. *)
Definition env_ok : Env () :=
  {| verifyUserSession := None;
     pdoFails := λ _, false;
     nameMatches := String.eqb;
     fallbackImage := Some "JFIF no image";
     fromJson := λ _, Some req_pipe;
     password_hash := λ password _, "$2y$04$" +:+ password;
     powerDNSSubdomainAddress := "127.0.0.1";
     execCommand := λ _, None;
     fillUserResponse := λ _ _, Some ();
     jsonResponse := λ response _ status,
       {| statusCode := status; headers := headers response;
          body := body response |} |}.

(** One registered user, who has not uploaded an icon. *)
Definition db_one_user : DB :=
  {| users := [ {| id := 1; name := "isucon"; displayName := "ISUCON";
                   description := ""; hashedPassword := "$2y$04$x" |} ];
     themes := [ {| theme_userId := 1; darkMode := false |} ];
     icons := [ {| icon_userId := 7; image := "other user's icon" |} ];
     inTransaction := false;
     usersAutoIncrement := 2 |}.

Definition response_empty : Response :=
  {| statusCode := 200; headers := []; body := "" |}.

Arguments verifyUserSession {User}.
Arguments pdoFails {User}.
Arguments nameMatches {User}.
Arguments fallbackImage {User}.
Arguments fromJson {User}.
Arguments getIconHandler {User}.
Arguments registerHandler {User}.
Arguments selectUserByName {User}.

Arguments password_hash {User}.
Arguments execCommand {User}.
Arguments powerDNSSubdomainAddress {User}.
Arguments fillUserResponse {User}.
Arguments jsonResponse {User}.

(** *** [postIconHandler] and [getMeHandler] *)

(** The statements of these two handlers that sit in a [try]. *)
Inductive SessionStatement := DeleteIcons | InsertIcon | SelectUserById.

(** What the two handlers reach outside [Handler.php], beyond [Env]. *)
Record SessionEnv (User : Type) := {
  sessionUserId : Z;         (* $this->session->get(DEFAULT_USER_ID_KEY) *)
  iconFromJson : string → option string;  (* PostIconRequest::fromJson(..)
                                ->image; [None]: UnexpectedValueException *)
  sessionPdoFails : SessionStatement → bool;
  iconInsertId : DB → Z;     (* lastInsertId() after the insert into icons;
                                the AUTO_INCREMENT of icons is MySQL's *)
  jsonIconResponse : Response → Z → Z → Response;
                             (* jsonResponse($response,
                                  new PostIconResponse(id), $status) *)
  jsonUserResponse : Response → User → Response;
                             (* jsonResponse($response, $user) *)
}.

Arguments sessionUserId {User}.
Arguments iconFromJson {User}.
Arguments sessionPdoFails {User}.
Arguments iconInsertId {User}.
Arguments jsonIconResponse {User}.
Arguments jsonUserResponse {User}.

(** [DELETE FROM icons WHERE user_id = ?]. *)
Definition deleteIcons (userId : Z) (d : DB) : DB :=
  {| users := users d; themes := themes d;
     icons := filter (λ i, icon_userId i ≠ userId) (icons d);
     inTransaction := inTransaction d;
     usersAutoIncrement := usersAutoIncrement d |}.

(** [INSERT INTO icons (user_id, image) VALUES (?, ?)]. *)
Definition insertIcon (userId : Z) (img : string) (d : DB) : DB :=
  {| users := users d; themes := themes d;
     icons := icons d ++ [ {| icon_userId := userId; image := img |} ];
     inTransaction := inTransaction d;
     usersAutoIncrement := usersAutoIncrement d |}.

(** [SELECT * FROM users WHERE id = ?] then [fetch()]. *)
Definition selectUserById (userId : Z) (d : DB) : option UserModel :=
  List.find (λ u, bool_decide (id u = userId)) (users d).

Definition postIconHandler {User : Type} (env : Env User)
    (senv : SessionEnv User) (d : DB) (requestBody : string)
    (response : Response) : DB * (Response + HttpException) :=
  match verifyUserSession env with
  | Some e => (d, inr e)
  | None =>
    let userId := sessionUserId senv in
    match iconFromJson senv requestBody with
    | None =>
        (d, inr (HttpBadRequestException
                   "failed to decode the request body as json"))
    | Some img =>
      match beginTransaction d with
      | None => (d, inr UncaughtPDOException)
      | Some d =>
        if sessionPdoFails senv DeleteIcons
        then (d, inr (HttpInternalServerErrorException
                        "failed to delete old user icon"))
        else
          let d := deleteIcons userId d in
          if sessionPdoFails senv InsertIcon
          then (d, inr (HttpInternalServerErrorException
                          "failed to insert new user icon"))
          else
            let d := insertIcon userId img d in
            let iconId := iconInsertId senv d in
            let d := commit d in
            (d, inl (jsonIconResponse senv response iconId 201))
      end
    end
  end.

Definition getMeHandler {User : Type} (env : Env User)
    (senv : SessionEnv User) (d : DB) (response : Response)
  : DB * (Response + HttpException) :=
  match verifyUserSession env with
  | Some e => (d, inr e)
  | None =>
    let userId := sessionUserId senv in
    match beginTransaction d with
    | None => (d, inr UncaughtPDOException)
    | Some d =>
      if sessionPdoFails senv SelectUserById
      then (d, inr (HttpInternalServerErrorException "failed to get user"))
      else
        match selectUserById userId d with
        | None =>
            (d, inr (HttpNotFoundException
                       "not found user that has the userid in session"))
        | Some userModel =>
          match fillUserResponse env userModel d with
          | None =>
              (d, inr (HttpInternalServerErrorException "failed to fill user"))
          | Some user =>
              (commit d, inl (jsonUserResponse senv response user))
          end
        end
    end
  end.

(** *** More sample data *)

Definition req_alice : PostUserRequest :=
  {| req_name := "alice"; req_displayName := "Alice";
     req_description := "hello"; req_password := "s3cret";
     req_darkMode := true |}.

(** [env_ok] receiving the registration of alice. *)
Definition env_alice : Env () :=
  {| verifyUserSession := None;
     pdoFails := λ _, false;
     nameMatches := String.eqb;
     fallbackImage := Some "JFIF no image";
     fromJson := λ _, Some req_alice;
     password_hash := λ password _, "$2y$04$" +:+ password;
     powerDNSSubdomainAddress := "127.0.0.1";
     execCommand := λ _, None;
     fillUserResponse := λ _ _, Some ();
     jsonResponse := λ response _ status,
       {| statusCode := status; headers := headers response;
          body := body response |} |}.


(** The session of user 1, whose uploads decode to the body itself. *)
Definition senv_user1 : SessionEnv () :=
  {| sessionUserId := 1;
     iconFromJson := λ requestBody, Some requestBody;
     sessionPdoFails := λ _, false;
     iconInsertId := λ d, Z.of_nat (length (icons d));
     jsonIconResponse := λ response _ status,
       {| statusCode := status; headers := headers response;
          body := body response |};
     jsonUserResponse := λ response _, response |}.

(** The session of a user that has no row in [users]. *)
Definition senv_user9 : SessionEnv () :=
  {| sessionUserId := 9;
     iconFromJson := λ requestBody, Some requestBody;
     sessionPdoFails := λ _, false;
     iconInsertId := λ d, Z.of_nat (length (icons d));
     jsonIconResponse := λ response _ status,
       {| statusCode := status; headers := headers response;
          body := body response |};
     jsonUserResponse := λ response _, response |}.

(** User 1 has uploaded two icons in the past, user 7 one. *)
Definition db_with_icons : DB :=
  {| users := [ {| id := 1; name := "isucon"; displayName := "ISUCON";
                   description := ""; hashedPassword := "$2y$04$x" |} ];
     themes := [ {| theme_userId := 1; darkMode := false |} ];
     icons := [ {| icon_userId := 1; image := "old icon" |};
                {| icon_userId := 7; image := "other user's icon" |};
                {| icon_userId := 1; image := "older icon" |} ];
     inTransaction := false;
     usersAutoIncrement := 2 |}.

End UserHandler.

(** * Properties *)

(** ** Strings *)

Lemma len_app (a b : string) : len (a +:+ b) = (len a + len b)%nat.
Proof.
  unfold len. induction a as [|c a IH]; [done|].
  change (S (String.length (a +:+ b)) = S (String.length a + String.length b)).
  by rewrite IH.
Qed.

Lemma slice_from_app (base suffix : string) :
  slice_from (len base) (base +:+ suffix) = suffix.
Proof. induction base as [|c base IH]; [by destruct suffix|exact IH]. Qed.

Lemma slice_from_split (i : nat) (s : string) :
  ∃ base, s = base +:+ slice_from i s.
Proof.
  revert s. induction i as [|i IH]; intros s.
  - exists "". by destruct s.
  - destruct s as [|c s]; simpl.
    + by exists "".
    + destruct (IH s) as [base Hbase]. exists (String c base).
      change (String c s = String c (base +:+ slice_from i s)).
      by rewrite <- Hbase.
Qed.

Lemma HasSuffix_spec (s suffix : string) :
  HasSuffix s suffix = true ↔ ∃ base, s = base +:+ suffix.
Proof.
  unfold HasSuffix. rewrite andb_true_iff, bool_decide_eq_true, Nat.leb_le.
  split.
  - intros [_ Hs]. destruct (slice_from_split (len s - len suffix) s) as [b Hb].
    exists b. by rewrite Hs in Hb.
  - intros [base ->]. rewrite len_app. split; [lia|].
    replace (len base + len suffix - len suffix)%nat with (len base) by lia.
    apply slice_from_app.
Qed.

(** ** [uniqueMsgs] *)

Lemma uniqueMsgs_loop_snoc (msgs : list string) (m : string) :
  uniqueMsgs_loop (msgs ++ [m]) = uniqueMsgs_step (uniqueMsgs_loop msgs) m.
Proof. unfold uniqueMsgs_loop. by rewrite foldl_app. Qed.

(** The map [dedup] holds exactly the messages already appended, which are
    exactly the messages already read, each once. *)
Lemma uniqueMsgs_loop_inv (msgs : list string) :
  (∀ m, is_Some ((uniqueMsgs_loop msgs).1 !! m) ↔ m ∈ (uniqueMsgs_loop msgs).2) ∧
  (∀ m, m ∈ (uniqueMsgs_loop msgs).2 ↔ m ∈ msgs) ∧
  NoDup (uniqueMsgs_loop msgs).2.
Proof.
  induction msgs as [|x msgs IH] using rev_ind.
  - split_and!; [|done|constructor].
    intros m. simpl. rewrite lookup_empty.
    split; [by intros [? ?]|by intros ?%elem_of_nil].
  - rewrite uniqueMsgs_loop_snoc. destruct IH as (Hmap & Hel & Hnd).
    unfold uniqueMsgs_step.
    destruct ((uniqueMsgs_loop msgs).1 !! x) as [u|] eqn:Hx.
    + assert (x ∈ msgs) as Hxin by (apply Hel, Hmap; eauto).
      split_and!; [done| |done].
      intros m. rewrite elem_of_app, Hel, list_elem_of_singleton.
      split; [by left|]. by intros [?| ->].
    + assert (x ∉ (uniqueMsgs_loop msgs).2) as Hnotin.
      { intros Hin%Hmap. rewrite Hx in Hin. by destruct Hin. }
      simpl. split_and!.
      * intros m.
        rewrite lookup_insert_is_Some, Hmap, elem_of_app,
          list_elem_of_singleton.
        destruct (decide (x = m)) as [->|Hne]; [by split; auto|].
        split; [intros [?|[_ ?]]; [done|by left]|].
        intros [?|?]; [by right|by subst].
      * intros m. by rewrite !elem_of_app, Hel.
      * apply NoDup_app. split_and!; [done| |apply NoDup_singleton].
        by intros y Hy ->%list_elem_of_singleton.
Qed.

Lemma uniqueMsgs_snoc (msgs : list string) (m : string) :
  uniqueMsgs (msgs ++ [m]) =
    if decide (m ∈ msgs) then uniqueMsgs msgs else uniqueMsgs msgs ++ [m].
Proof.
  unfold uniqueMsgs. rewrite uniqueMsgs_loop_snoc.
  destruct (uniqueMsgs_loop_inv msgs) as (Hmap & Hel & _).
  unfold uniqueMsgs_step.
  destruct ((uniqueMsgs_loop msgs).1 !! m) as [u|] eqn:Hm.
  - rewrite decide_True; [done|]. apply Hel, Hmap. eauto.
  - rewrite decide_False; [done|].
    intros Hin%Hel%Hmap. rewrite Hm in Hin. by destruct Hin.
Qed.

Lemma dedup_first_seen_snoc (msgs : list string) (m : string) :
  dedup_first_seen (msgs ++ [m]) =
    if decide (m ∈ msgs) then dedup_first_seen msgs
    else dedup_first_seen msgs ++ [m].
Proof.
  induction msgs as [|x msgs IH].
  - destruct (decide (m ∈ [])) as [Hin|_]; [by apply elem_of_nil in Hin|done].
  - change (dedup_first_seen ((x :: msgs) ++ [m]))
      with (x :: filter (λ m', m' ≠ x) (dedup_first_seen (msgs ++ [m]))).
    change (dedup_first_seen (x :: msgs))
      with (x :: filter (λ m', m' ≠ x) (dedup_first_seen msgs)).
    rewrite IH.
    destruct (decide (m ∈ msgs)) as [Hin|Hnotin].
    + rewrite decide_True by (by right). done.
    + rewrite filter_app.
      destruct (decide (m = x)) as [->|Hne].
      * rewrite decide_True by left.
        rewrite filter_cons_False by (by intros ?).
        by rewrite filter_nil, app_nil_r.
      * rewrite decide_False by (by intros [?|?]%elem_of_cons).
        by rewrite filter_cons_True by done.
Qed.

Lemma uniqueMsgs_dedup_first_seen (msgs : list string) :
  uniqueMsgs msgs = dedup_first_seen msgs.
Proof.
  induction msgs as [|m msgs IH] using rev_ind; [done|].
  by rewrite uniqueMsgs_snoc, dedup_first_seen_snoc, IH.
Qed.

Lemma dedup_first_seen_sublist (msgs : list string) :
  dedup_first_seen msgs `sublist_of` msgs.
Proof.
  induction msgs as [|x msgs IH]; simpl; [done|].
  apply sublist_skip. etrans; [apply sublist_filter|done].
Qed.

(** C2: [uniqueMsgs] removes duplicates by exact text and keeps the order
    in which messages are first seen: its result is the list with every
    later copy dropped, has no duplicate, holds the same messages as the
    input, is a subsequence of the input, and grows by a message exactly
    when that message was not read before; on a, b, a, c, b it yields
    a, b, c. *)
Theorem uniqueMsgs_first_seen (msgs : list string) :
  uniqueMsgs msgs = dedup_first_seen msgs ∧
  NoDup (uniqueMsgs msgs) ∧
  (∀ m, m ∈ uniqueMsgs msgs ↔ m ∈ msgs) ∧
  uniqueMsgs msgs `sublist_of` msgs ∧
  (∀ m, uniqueMsgs (msgs ++ [m]) =
          if decide (m ∈ msgs) then uniqueMsgs msgs
          else uniqueMsgs msgs ++ [m]) ∧
  uniqueMsgs ["a"; "b"; "a"; "c"; "b"] = ["a"; "b"; "c"].
Proof.
  destruct (uniqueMsgs_loop_inv msgs) as (_ & Hel & Hnd).
  split_and!.
  - apply uniqueMsgs_dedup_first_seen.
  - exact Hnd.
  - exact Hel.
  - rewrite uniqueMsgs_dedup_first_seen. apply dedup_first_seen_sublist.
  - apply uniqueMsgs_snoc.
  - reflexivity.
Qed.

(** ** The scenario counter report *)

Lemma scenarioLine_tests (counter : gmap string Z) (name : string) (count : Z) :
  ((∃ base, name = base +:+ "-fail") ∧
   scenarioLine counter name count = FailedScenario name count) ∨
  ((∀ base, name ≠ base +:+ "-fail") ∧
   scenarioLine counter name count =
     match counter !! (name +:+ "-fail") with
     | Some failCount => SucceededAndFailed name count failCount
     | None => Executed name count
     end).
Proof.
  unfold scenarioLine. destruct (HasSuffix name "-fail") eqn:Hs.
  - left. split; [by apply HasSuffix_spec|done].
  - right. split; [|done]. intros base ->.
    assert (HasSuffix (base +:+ "-fail") "-fail" = true) by (apply HasSuffix_spec; eauto).
    congruence.
Qed.

(** C1, as the code has it: the failure counterpart of a tag is found by
    the naming convention alone.  A tag that ends in -fail is logged as a
    failed scenario; any other tag is logged with the count stored under
    that tag followed by -fail, when the counter has such an entry; and
    every entry of the counter is logged this way. *)
Theorem fail_counterpart_by_suffix (counter : gmap string Z) (name : string)
    (count : Z) :
  (((∃ base, name = base +:+ "-fail") ∧
    scenarioLine counter name count = FailedScenario name count) ∨
   ((∀ base, name ≠ base +:+ "-fail") ∧
    scenarioLine counter name count =
      match counter !! (name +:+ "-fail") with
      | Some failCount => SucceededAndFailed name count failCount
      | None => Executed name count
      end)) ∧
  (counter !! name = Some count →
   scenarioLine counter name count ∈ scenarioReport counter).
Proof.
  split; [apply scenarioLine_tests|].
  intros Hname. unfold scenarioReport.
  apply (list_elem_of_fmap_2' _ _ (name, count)); [|done].
  by apply elem_of_map_to_list.
Qed.

Lemma fail_counterpart_by_suffix_witness :
  scenarioLine sampleCounter "reserve" 5 ∈ scenarioReport sampleCounter.
Proof.
  apply (proj2 (fail_counterpart_by_suffix sampleCounter "reserve" 5)).
  reflexivity.
Defined.

(** C1 fails as stated: a registered pair whose failTag does not follow the
    convention is not associated, and a tag that ends in -fail is treated as
    a failure counterpart although no registration names it. *)
Lemma fail_counterpart_ignores_registration :
  scenarioLine (<["reserve_ng" := 2]> (<["reserve" := 5]> ∅)) "reserve" 5
    = Executed "reserve" 5 ∧
  scenarioLineByPairs [("reserve", "reserve_ng")]
      (<["reserve_ng" := 2]> (<["reserve" := 5]> ∅)) "reserve" 5
    = SucceededAndFailed "reserve" 5 2 ∧
  scenarioLine (<["x-fail" := 1]> ∅) "x-fail" 1 = FailedScenario "x-fail" 1 ∧
  scenarioLineByPairs [] (<["x-fail" := 1]> ∅) "x-fail" 1 = Executed "x-fail" 1 ∧
  ¬ (∀ pairs counter name count,
       scenarioLine counter name count =
       scenarioLineByPairs pairs counter name count).
Proof.
  split_and!; [reflexivity..|].
  intros H. specialize (H [] (<["x-fail" := 1]> ∅) "x-fail" 1).
  vm_compute in H. discriminate H.
Qed.

(** ** Traces of [run] *)

Ltac run_unfold :=
  unfold run, finish, Action, initialized, benchmark, report,
    dumpFailedResult, emit, emits, leave, mbind, mret, Run_bind, Run_ret.

(** Membership in a trace whose events are all listed. *)
Ltac in_listed H :=
  repeat (apply elem_of_cons in H as [H|H]; [try discriminate H|]);
  try (by apply elem_of_nil in H).

Ltac not_listed := let H := fresh "Hin" in intros H; in_listed H.

Ltac run_cases := run_unfold; repeat case_match; simplify_eq/=.

(** Membership of an event that is listed in the trace. *)
Ltac listed :=
  repeat first [ by apply list_elem_of_here | apply list_elem_of_further ].

(** The scenario log lines carry no verdict and read no counter. *)
Lemma written_scenarioLog (ls : list ScenarioLine) :
  omap written (EScenarioLog <$> ls) = [].
Proof. by induction ls. Qed.

Lemma emitted_scenarioLog (ls : list ScenarioLine) :
  omap emitted (EScenarioLog <$> ls) = [].
Proof. by induction ls. Qed.


Ltac trace_simpl :=
  unfold records, resultFile; simpl;
  rewrite ?omap_app, ?written_scenarioLog, ?emitted_scenarioLog; simpl.



Lemma pretestReached_world_pretest_fails : pretestReached world_pretest_fails.
Proof. repeat split. by eexists. Qed.


Lemma finalcheckReached_world_finalcheck_fails :
  finalcheckReached world_finalcheck_fails.
Proof. repeat split. by eexists. Qed.

(** ** The phases *)

(** C3: when the pretest fails, the benchmarker is neither built nor run, no
    total profit is read, no result file is written, and every record that
    is emitted has pass false and score 0; when the run got as far as the
    pretest, it ends with exit status 1 right after printing such a failure
    record. *)
Theorem pretest_failure_aborts (w : World) (err : error) :
  w_pretest_err w = Some err →
  (EBenchmarkerRun ∉ (run w).1) ∧
  (ENewBenchmarker ∉ (run w).1) ∧
  (EGetTotalProfit ∉ (run w).1) ∧
  resultFile (run w).1 = [] ∧
  (∀ r, r ∈ records (run w).1 → Pass r = false ∧ Score r = 0) ∧
  (pretestReached w →
     (run w).2 = ExitError err 1 ∧
     ∃ e, (run w).1 =
            [ENewClient; EInitialize; EInitCounter; EInitErrors;
             EPretest {| ResolveAttempts := 10 |}; e] ∧
          failureEmission e).
Proof.
  intros Hpre. split_and!.
  - run_unfold. rewrite Hpre. repeat case_match; simplify_eq/=; not_listed.
  - run_unfold. rewrite Hpre. repeat case_match; simplify_eq/=; not_listed.
  - run_unfold. rewrite Hpre. repeat case_match; simplify_eq/=; not_listed.
  - run_unfold. rewrite Hpre. by repeat case_match; simplify_eq/=.
  - run_unfold. rewrite Hpre. repeat case_match; simplify_eq/=;
      intros r Hr; in_listed Hr; by subst.
  - intros (Hs & Hc & Hn & resp & Hi).
    run_unfold. rewrite Hpre, Hs, Hc, Hn, Hi.
    repeat case_match; simplify_eq/=; (split; [done|]); eexists; (split; [done|]); done.
Qed.

Lemma pretest_failure_aborts_witness :
  (run world_pretest_fails).2 = ExitError "pretest: icon mismatch" 1 ∧
  (EBenchmarkerRun ∉ (run world_pretest_fails).1) ∧
  (EGetTotalProfit ∉ (run world_pretest_fails).1).
Proof.
  pose proof (pretest_failure_aborts world_pretest_fails
                "pretest: icon mismatch" eq_refl) as (H1 & _ & H3 & _ & _ & H6).
  split_and!; [|exact H1|exact H3].
  apply H6. exact pretestReached_world_pretest_fails.
Defined.

(** C4: when the final check fails, no result file is written, every
    emitted record has pass false and score 0, and no total profit is read,
    whatever the timed phase earned; when the run got as far as the final
    check (so the timed phase did run), it ends with exit status 1 and its
    last act is printing a failure record. *)
Theorem finalcheck_failure_fails (w : World) (err : error) :
  w_finalcheck_err w = Some err →
  resultFile (run w).1 = [] ∧
  (∀ r, r ∈ records (run w).1 → Pass r = false ∧ Score r = 0) ∧
  (EGetTotalProfit ∉ (run w).1) ∧
  (finalcheckReached w →
     (run w).2 = ExitError err 1 ∧
     EBenchmarkerRun ∈ (run w).1 ∧
     EFinalcheck {| ResolveAttempts := 10 |} ∈ (run w).1 ∧
     ∃ e, last (run w).1 = Some e ∧ failureEmission e).
Proof.
  intros Hfin. split_and!.
  - run_unfold. rewrite Hfin. by repeat case_match; simplify_eq/=.
  - run_unfold. rewrite Hfin. repeat case_match; simplify_eq/=;
      intros r Hr; in_listed Hr; by subst.
  - run_unfold. rewrite Hfin. repeat case_match; simplify_eq/=; not_listed.
  - intros ((Hs & Hc & Hn & resp & Hi) & Hpre & Honly).
    run_unfold. rewrite Hfin, Hs, Hc, Hn, Hi, Hpre, Honly.
    repeat case_match; simplify_eq/=;
      (split_and!; [done|set_solver|set_solver|by eexists]).
Qed.

Lemma finalcheck_failure_fails_witness :
  0 < w_totalProfit world_finalcheck_fails ∧
  (run world_finalcheck_fails).2 = ExitError "finalcheck: reservation lost" 1 ∧
  resultFile (run world_finalcheck_fails).1 = [].
Proof.
  pose proof (finalcheck_failure_fails world_finalcheck_fails
                "finalcheck: reservation lost" eq_refl) as (H1 & _ & _ & H4).
  split_and!; [reflexivity| |exact H1].
  apply H4. exact finalcheckReached_world_finalcheck_fails.
Defined.









(** ** Counter reads and the freeze *)

Lemma readsFrozen_app (p : RegistryPhase) (t1 t2 : list Event) :
  readsFrozen p (t1 ++ t2) =
    readsFrozen p t1 && readsFrozen (foldl registryStep p t1) t2.
Proof.
  revert p. induction t1 as [|e t1 IH]; intros p; simpl; [done|].
  by rewrite IH, andb_assoc.
Qed.

Lemma registryStep_scenarioLog (p : RegistryPhase) (ls : list ScenarioLine) :
  foldl registryStep p (EScenarioLog <$> ls) = p.
Proof. induction ls as [|l ls IH]; simpl; [done|exact IH]. Qed.

Lemma readsFrozen_scenarioLog (p : RegistryPhase) (ls : list ScenarioLine) :
  readsFrozen p (EScenarioLog <$> ls) = true.
Proof. induction ls as [|l ls IH]; simpl; [done|exact IH]. Qed.

Lemma readsFrozen_read (p : RegistryPhase) (t1 : list Event) (e : Event)
    (t2 : list Event) :
  readsFrozen p (t1 ++ e :: t2) = true →
  isCounterRead e = true →
  foldl registryStep p t1 = Frozen.
Proof.
  rewrite readsFrozen_app. simpl. intros H He. rewrite He in H.
  apply andb_true_iff in H as [_ H]. apply andb_true_iff in H as [H _].
  by destruct (foldl registryStep p t1).
Qed.

Lemma registryPhase_Frozen (t : list Event) :
  registryPhase t = Frozen →
  ∃ t0 t0', t = t0 ++ EDoneCounter :: t0' ∧ EInitCounter ∉ t0'.
Proof.
  unfold registryPhase.
  induction t as [|e t IH] using rev_ind; [done|].
  rewrite foldl_app. simpl. intros He.
  assert (e = EDoneCounter ∨
          (foldl registryStep Uninitialised t = Frozen ∧ e ≠ EInitCounter))
    as [->|[Ht Hi]].
  { destruct e; simpl in He; first [by left | by right | simplify_eq]. }
  - exists t, []. split; [done|]. apply not_elem_of_nil.
  - destruct (IH Ht) as (t0 & t0' & -> & Hno).
    exists t0, (t0' ++ [e]). split; [by rewrite <- app_assoc|].
    rewrite elem_of_app, list_elem_of_singleton. intros [?|?]; done.
Qed.

Lemma run_readsFrozen (w : World) : readsFrozen Uninitialised (run w).1 = true.
Proof.
  run_cases; try done.
  all: by rewrite readsFrozen_app, readsFrozen_scenarioLog,
            registryStep_scenarioLog.
Qed.

Lemma Increment_frozen (tag : string) (delta : Z) (r : CounterRegistry.t) :
  CounterRegistry.active r = false →
  CounterRegistry.counts (CounterRegistry.Increment tag delta r).1 = CounterRegistry.counts r ∧
  CounterRegistry.weights (CounterRegistry.Increment tag delta r).1 = CounterRegistry.weights r ∧
  CounterRegistry.active (CounterRegistry.Increment tag delta r).1 = false ∧
  (CounterRegistry.Increment tag delta r).2 ≠ CounterRegistry.Counted.
Proof.
  intros Ha. unfold CounterRegistry.Increment. rewrite Ha.
  by destruct (CounterRegistry.counts r !! tag).
Qed.

Lemma increments_frozen (ops : list (string * Z)) (r : CounterRegistry.t) :
  CounterRegistry.active r = false →
  CounterRegistry.counts (CounterRegistry.increments ops r) = CounterRegistry.counts r ∧
  CounterRegistry.weights (CounterRegistry.increments ops r) = CounterRegistry.weights r ∧
  CounterRegistry.active (CounterRegistry.increments ops r) = false.
Proof.
  revert r. induction ops as [|[tag delta] ops IH]; intros r Ha; [done|].
  destruct (Increment_frozen tag delta r Ha) as (Hc & Hw & Ha' & _).
  destruct (IH _ Ha') as (Hc' & Hw' & Ha'').
  unfold CounterRegistry.increments in *. simpl. by rewrite Hc', Hw', Hc, Hw.
Qed.

Lemma GetTotalProfit_ext (r r' : CounterRegistry.t) :
  CounterRegistry.counts r = CounterRegistry.counts r' → CounterRegistry.weights r = CounterRegistry.weights r' →
  CounterRegistry.GetTotalProfit r = CounterRegistry.GetTotalProfit r'.
Proof. destruct r, r'. simpl. by intros -> ->. Qed.

(** C7: in every run, each read of the scenario counter, of a tag and of
    the total profit happens after DoneCounter, with no InitCounter in
    between; and a frozen registry accepts no increment: whatever is tried
    after Done, the counts, every read by tag and the total profit stay as
    they were at the freeze. *)
Theorem reads_only_after_freeze :
  (∀ w t1 e t2,
     (run w).1 = t1 ++ e :: t2 → isCounterRead e = true →
     registryPhase t1 = Frozen ∧
     ∃ t0 t0', t1 = t0 ++ EDoneCounter :: t0' ∧ EInitCounter ∉ t0') ∧
  (∀ r ops,
     let frozen := CounterRegistry.Done r in
     let late := CounterRegistry.increments ops frozen in
     CounterRegistry.counts late = CounterRegistry.counts frozen ∧
     CounterRegistry.active late = false ∧
     (∀ tag, CounterRegistry.GetByTag tag late = CounterRegistry.GetByTag tag frozen) ∧
     CounterRegistry.GetTotalProfit late = CounterRegistry.GetTotalProfit frozen ∧
     (∀ tag delta, (CounterRegistry.Increment tag delta late).2 ≠ CounterRegistry.Counted)).
Proof.
  split.
  - intros w t1 e t2 Ht He.
    assert (registryPhase t1 = Frozen) as Hp.
    { apply (readsFrozen_read _ _ e t2); [|done].
      rewrite <- Ht. apply run_readsFrozen. }
    split; [done|]. by apply registryPhase_Frozen.
  - intros r ops frozen late.
    destruct (increments_frozen ops frozen eq_refl) as (Hc & Hw & Ha).
    fold late in Hc, Hw, Ha. split_and!; [done|done| | |].
    + intros tag. unfold CounterRegistry.GetByTag. by rewrite Hc.
    + by apply GetTotalProfit_ext.
    + intros tag delta. by apply Increment_frozen.
Qed.

Lemma reads_only_after_freeze_witness :
  registryPhase
    [ENewClient; EInitialize; EInitCounter; EInitErrors;
     EPretest {| ResolveAttempts := 10 |}; EInitCounter; EInitErrors;
     ENewBenchmarker; EBenchmarkerRun; EDoneCounter; EErrorsDone;
     EFinalcheck {| ResolveAttempts := 10 |}; EGetFinalErrorMessages;
     EScenarioCounter;
     EScenarioLog (FailedScenario "reserve-fail" 2);
     EScenarioLog (SucceededAndFailed "reserve" 5 2);
     EScenarioLog (Executed "tip" 7);
     EGetByTag TooSlow; EGetByTag TooManySpam; EGetByTag DNSResolve;
     EGetByTag DNSFailed] = Frozen.
Proof.
  refine (proj1 (proj1 reads_only_after_freeze world_ok _ EGetTotalProfit
            [EWriteFile "/tmp/result.json"
               {| Pass := true; Score := 100;
                  Messages := ["a"; "b"; "c"; "名前解決成功数 3"; "売上: 100"];
                  Language := "go" |}] _ _)).
  - vm_compute. reflexivity.
  - reflexivity.
Defined.

(** ** [Client.Initialize] *)


(** C8: Initialize returns an error exactly when building the request
    fails, sending it fails, or the status is not 200; on a 200 response it
    returns whatever the decoder left in the response pointer together with
    a nil error, so a body that does not decode gives a nil response and a
    nil error. *)
Theorem Initialize_error_iff :
  (∀ a, is_Some (Initialize a).2 ↔
        is_Some (newRequest_err a) ∨
        (∃ e, do_result a = inr e) ∨
        (∃ resp, do_result a = inl resp ∧ StatusCode resp ≠ 200)) ∧
  (∀ a resp,
     newRequest_err a = None → do_result a = inl resp →
     StatusCode resp = 200 →
     Initialize a = ((json_Decode a (Body resp)).1, None)) ∧
  (∃ a, is_Some (json_Decode a "<html>").2 ∧ Initialize a = (None, None)).
Proof.
  split_and!.
  - intros a. unfold Initialize, StatusOK.
    destruct (newRequest_err a) as [e|]; simpl.
    { split; [intros _; left; eauto|eauto]. }
    destruct (do_result a) as [resp|e]; simpl.
    + case_bool_decide as Hst; simpl.
      * split; [intros _; right; right; eauto|eauto].
      * split; [by intros [? ?]|].
        intros [[? ?]|[[? ?]|(resp' & ? & ?)]]; simplify_eq.
    + split; [intros _; right; left; eauto|eauto].
  - intros a resp Hn Hd Hs. unfold Initialize, StatusOK. rewrite Hn, Hd.
    by rewrite bool_decide_eq_false_2 by (by intros ?).
  - exists agent_garbled. split; [by eexists|reflexivity].
Qed.

Lemma Initialize_error_iff_witness :
  Initialize agent_garbled = (None, None).
Proof.
  apply (proj1 (proj2 Initialize_error_iff) agent_garbled
           {| StatusCode := 200; Body := "<html>" |}); reflexivity.
Defined.

(** ** More on [uniqueMsgs] *)

Lemma filter_all {A} (P : A → Prop) `{∀ x, Decision (P x)} (l : list A) :
  (∀ x, x ∈ l → P x) → filter P l = l.
Proof.
  induction l as [|a l IH]; intros Hall; [done|].
  rewrite filter_cons_True by (apply Hall; left).
  f_equal. apply IH. intros x Hx. apply Hall. by right.
Qed.

Lemma dedup_first_seen_NoDup (msgs : list string) :
  NoDup msgs → dedup_first_seen msgs = msgs.
Proof.
  induction 1 as [|m msgs Hm Hnd IH]; [done|].
  simpl. rewrite IH. f_equal. apply filter_all.
  intros m' Hin ->. done.
Qed.

(** X1: deduplicating twice changes nothing more, a list is left as it is
    exactly when it has no duplicate, and the result is never longer than
    the input. *)
Theorem uniqueMsgs_idempotent (msgs : list string) :
  uniqueMsgs (uniqueMsgs msgs) = uniqueMsgs msgs ∧
  (NoDup msgs ↔ uniqueMsgs msgs = msgs) ∧
  (length (uniqueMsgs msgs) ≤ length msgs)%nat.
Proof.
  destruct (uniqueMsgs_loop_inv msgs) as (_ & _ & Hnd).
  fold (uniqueMsgs msgs) in Hnd.
  split_and!.
  - rewrite (uniqueMsgs_dedup_first_seen (uniqueMsgs msgs)).
    by apply dedup_first_seen_NoDup.
  - split.
    + intros H. rewrite uniqueMsgs_dedup_first_seen.
      by apply dedup_first_seen_NoDup.
    + intros <-. exact Hnd.
  - apply sublist_length. rewrite uniqueMsgs_dedup_first_seen.
    apply dedup_first_seen_sublist.
Qed.

(** X2: over a concatenation, as [Action] builds it from the message lists
    of the error categories, the result is the deduplicated first list
    followed by the deduplicated second list without the messages the first
    list already has. *)
Theorem uniqueMsgs_app (msgs1 msgs2 : list string) :
  uniqueMsgs (msgs1 ++ msgs2) =
    uniqueMsgs msgs1 ++ filter (λ m, m ∉ msgs1) (uniqueMsgs msgs2).
Proof.
  induction msgs2 as [|m msgs2 IH] using rev_ind.
  - by rewrite !app_nil_r.
  - rewrite app_assoc, !uniqueMsgs_snoc, IH.
    destruct (decide (m ∈ msgs2)) as [H2|H2].
    + rewrite decide_True by (apply elem_of_app; by right). done.
    + rewrite filter_app.
      destruct (decide (m ∈ msgs1)) as [H1|H1].
      * rewrite decide_True by (apply elem_of_app; by left).
        rewrite filter_cons_False by (by intros ?).
        by rewrite filter_nil, app_nil_r.
      * rewrite decide_False by (by intros [?|?]%elem_of_app).
        rewrite filter_cons_True by done.
        by rewrite filter_nil, app_assoc.
Qed.

(** ** More on the scenario report *)

Lemma elem_of_scenarioReport (counter : gmap string Z) (line : ScenarioLine) :
  line ∈ scenarioReport counter ↔
  ∃ name count, counter !! name = Some count ∧
                line = scenarioLine counter name count.
Proof.
  unfold scenarioReport. rewrite list_elem_of_fmap. split.
  - intros ([name count] & -> & Hin%elem_of_map_to_list). eauto.
  - intros (name & count & Hin & ->). exists (name, count).
    split; [done|]. by apply elem_of_map_to_list.
Qed.






(** X4: when the counter holds both a tag that does not end in -fail and
    that tag followed by -fail, the failure count is logged twice, on the
    line of the tag and on the line of its counterpart, and the tag is never
    logged as merely executed. *)

Theorem scenario_pair_reported_on_both_lines (counter : gmap string Z)
    (name : string) (count failCount : Z) :
  counter !! name = Some count →
  counter !! (name +:+ "-fail") = Some failCount →
  HasSuffix name "-fail" = false →
  SucceededAndFailed name count failCount ∈ scenarioReport counter ∧
  FailedScenario (name +:+ "-fail") failCount ∈ scenarioReport counter ∧
  (∀ n, Executed name n ∉ scenarioReport counter).
Proof.
  intros Hname Hfail Hsuffix.
  assert (HasSuffix (name +:+ "-fail") "-fail" = true) as Hs
    by (apply HasSuffix_spec; eauto).
  split_and!.
  - apply elem_of_scenarioReport. exists name, count.
    split; [done|]. unfold scenarioLine. by rewrite Hsuffix, Hfail.
  - apply elem_of_scenarioReport.
    exists (name +:+ "-fail"), failCount.
    split; [done|]. unfold scenarioLine. by rewrite Hs.
  - intros n (name' & count' & Hin & Hline)%elem_of_scenarioReport.
    unfold scenarioLine in Hline.
    destruct (HasSuffix name' "-fail"); [done|].
    destruct (counter !! (name' +:+ "-fail")) eqn:Hf; [done|].
    simplify_eq.
Qed.

Lemma scenario_pair_reported_on_both_lines_witness :
  SucceededAndFailed "reserve" 5 2 ∈ scenarioReport sampleCounter ∧
  FailedScenario "reserve-fail" 2 ∈ scenarioReport sampleCounter ∧
  (∀ n, Executed "reserve" n ∉ scenarioReport sampleCounter).
Proof.
  apply (scenario_pair_reported_on_both_lines sampleCounter "reserve" 5 2);
    reflexivity.
Defined.

(** ** More on [Client.Initialize] *)

(** X5: Initialize never returns a response together with an error, and a
    response it returns is what the decoder left for the body of a 200
    answer. *)
Theorem Initialize_response_or_error (a : AgentWorld) :
  (∀ e, (Initialize a).2 = Some e → (Initialize a).1 = None) ∧
  (∀ r, (Initialize a).1 = Some r →
        newRequest_err a = None ∧
        ∃ resp, do_result a = inl resp ∧ StatusCode resp = 200 ∧
                (json_Decode a (Body resp)).1 = Some r).
Proof.
  unfold Initialize, StatusOK.
  destruct (newRequest_err a) as [e0|]; [by split|].
  destruct (do_result a) as [resp|e0]; [|by split].
  case_bool_decide as Hst; simpl; [by split|].
  split; [done|]. intros r Hr. split; [done|].
  exists resp. split_and!; [done| |done].
  by destruct (decide (StatusCode resp = 200)).
Qed.

Lemma Initialize_response_or_error_witness :
  newRequest_err agent_ok = None ∧
  ∃ resp, do_result agent_ok = inl resp ∧ StatusCode resp = 200 ∧
          (json_Decode agent_ok (Body resp)).1 = Some {| IR_Language := "go" |}.
Proof.
  apply (proj2 (Initialize_response_or_error agent_ok)). reflexivity.
Defined.

(** ** More on [run] *)

(** X6: Action returns nil exactly when the loggers, the client, the
    initialize call and the pretest succeed and then either --pretest-only
    is set, or the final check passes and the result is marshalled and
    written; an error of the timed phase plays no part. *)
Theorem run_returns_nil_iff (w : World) :
  (run w).2 = ReturnNil ↔
  ∃ resp,
    w_staffLogger_err w = None ∧ w_contestantLogger_err w = None ∧
    w_newClient_err w = None ∧
    Initialize (w_agent w) = (Some resp, None) ∧
    w_pretest_err w = None ∧
    (w_pretestOnly w = true ∨
     (w_finalcheck_err w = None ∧
      w_marshal_err w (passingResult w (IR_Language resp)) = None ∧
      w_writeFile_err w = None)).
Proof.
  split.
  - run_cases; intros Hout; try discriminate Hout.
    all: eexists; split_and!; try done.
    all: try (by left).
    all: right; by split_and!.
  - intros (resp & Hs & Hc & Hn & Hi & Hpre & Hrest).
    run_unfold. rewrite Hs, Hc, Hn, Hi, Hpre.
    destruct Hrest as [->|(Hfin & Hm & Hw)]; [done|].
    unfold passingResult, summaryMsgs in Hm. simpl in Hm.
    rewrite Hfin. simpl. rewrite Hm. simpl. rewrite Hw.
    by repeat case_match; simplify_eq/=.
Qed.

(** X7: an error returned by benchmarker.run does not end the run: a
    failure record with no message is printed, the run goes on through the
    final check, and when that passes the passing record is still written
    and Action returns nil. *)
Theorem benchmark_error_does_not_fail_run (w : World) (resp : InitializeResponse)
    (err : error) :
  w_staffLogger_err w = None → w_contestantLogger_err w = None →
  w_newClient_err w = None →
  Initialize (w_agent w) = (Some resp, None) →
  w_pretest_err w = None → w_pretestOnly w = false →
  w_benchRun_err w = Some err →
  w_finalcheck_err w = None →
  (∀ r, w_marshal_err w r = None) →
  w_writeFile_err w = None →
  (run w).2 = ReturnNil ∧
  records (run w).1 =
    [ {| Pass := false; Score := 0; Messages := [];
         Language := IR_Language resp |};
      passingResult w (IR_Language resp) ] ∧
  resultFile (run w).1 = [passingResult w (IR_Language resp)].
Proof.
  intros Hs Hc Hn Hi Hpre Honly Hbench Hfin Hm Hw.
  run_unfold. rewrite Hs, Hc, Hn, Hi, Hpre, Honly, Hbench, Hfin, Hw, !Hm.
  split_and!; [done|by trace_simpl..].
Qed.

Lemma benchmark_error_does_not_fail_run_witness :
  (run world_bench_error).2 = ReturnNil ∧
  records (run world_bench_error).1 =
    [ {| Pass := false; Score := 0; Messages := []; Language := "go" |};
      passingResult world_bench_error "go" ] ∧
  resultFile (run world_bench_error).1 = [passingResult world_bench_error "go"].
Proof.
  apply (benchmark_error_does_not_fail_run world_bench_error
           {| IR_Language := "go" |} "benchmarker: worker failed");
    reflexivity.
Defined.

(** X8: Action dereferences a nil response exactly when the loggers and
    the client were set up, the initialize request was built and sent, and
    the target answered 200 with a body the decoder left as nil; the run
    then consists of the client construction and the initialize call
    alone, with no record. *)
Theorem undecodable_initialize_panics (w : World) :
  ((run w).2 = NilDereference ↔
   w_staffLogger_err w = None ∧ w_contestantLogger_err w = None ∧
   w_newClient_err w = None ∧
   newRequest_err (w_agent w) = None ∧
   ∃ resp, do_result (w_agent w) = inl resp ∧ StatusCode resp = 200 ∧
           (json_Decode (w_agent w) (Body resp)).1 = None) ∧
  ((run w).2 = NilDereference → (run w).1 = [ENewClient; EInitialize]).
Proof.
  assert (w_staffLogger_err w = None ∧ w_contestantLogger_err w = None ∧
          w_newClient_err w = None ∧
          newRequest_err (w_agent w) = None ∧
          (∃ resp, do_result (w_agent w) = inl resp ∧ StatusCode resp = 200 ∧
                   (json_Decode (w_agent w) (Body resp)).1 = None) →
          run w = ([ENewClient; EInitialize], NilDereference)) as Hpanic.
  { intros (Hs & Hc & Hn & Hr & resp & Hd & Hst & Hdec).
    run_unfold. rewrite Hs, Hc, Hn. unfold Initialize, StatusOK.
    rewrite Hr, Hd, bool_decide_eq_false_2 by (by intros ?).
    by rewrite Hdec. }
  assert ((run w).2 = NilDereference →
          w_staffLogger_err w = None ∧ w_contestantLogger_err w = None ∧
          w_newClient_err w = None ∧
          newRequest_err (w_agent w) = None ∧
          ∃ resp, do_result (w_agent w) = inl resp ∧ StatusCode resp = 200 ∧
                  (json_Decode (w_agent w) (Body resp)).1 = None) as Hconv.
  { run_unfold.
    destruct (w_staffLogger_err w); [done|].
    destruct (w_contestantLogger_err w); [done|].
    destruct (w_newClient_err w) as [e|].
    { by repeat case_match; simplify_eq/=. }
    unfold Initialize, StatusOK.
    destruct (newRequest_err (w_agent w)) as [e|].
    { by repeat case_match; simplify_eq/=. }
    destruct (do_result (w_agent w)) as [resp|e].
    2:{ by repeat case_match; simplify_eq/=. }
    case_bool_decide as Hst.
    { by repeat case_match; simplify_eq/=. }
    destruct (json_Decode (w_agent w) (Body resp)).1 as [r|] eqn:Hd; simpl.
    { intros H. exfalso. revert H. by repeat case_match; simplify_eq/=. }
    intros _. split_and!; try done. exists resp. split_and!; done. }
  split; [split|].
  - exact Hconv.
  - intros H. by rewrite (Hpanic H).
  - intros H. by rewrite (Hpanic (Hconv H)).
Qed.

(** X9: when the target answers the initialize call with a status other
    than 200, Action exits with status 1 and the wrapped status message,
    never starts the pretest or the counters, and the record it prints
    carries the language configured before the call. *)
Theorem refused_initialize_reported (w : World) (resp : HTTPResponse) :
  w_staffLogger_err w = None → w_contestantLogger_err w = None →
  w_newClient_err w = None →
  newRequest_err (w_agent w) = None →
  do_result (w_agent w) = inl resp →
  StatusCode resp ≠ 200 →
  (run w).2 = ExitError
    "初期化が失敗しました: initializeのステータスが200ではありません" 1 ∧
  (∀ r, EPretest r ∉ (run w).1) ∧
  (EInitCounter ∉ (run w).1) ∧
  (w_marshal_err w {| Pass := false; Score := 0;
                      Messages := ["初期化が失敗しました"];
                      Language := w_language w |} = None →
   records (run w).1 = [ {| Pass := false; Score := 0;
                            Messages := ["初期化が失敗しました"];
                            Language := w_language w |} ]).
Proof.
  intros Hs Hc Hn Hr Hd Hst.
  run_unfold. rewrite Hs, Hc, Hn. unfold Initialize, StatusOK.
  rewrite Hr, Hd, bool_decide_eq_true_2 by done.
  repeat case_match; simplify_eq/=;
    (split_and!; [done|intros r; not_listed|not_listed|done]).
Qed.

Lemma refused_initialize_reported_witness :
  (run world_refused).2 = ExitError
    "初期化が失敗しました: initializeのステータスが200ではありません" 1 ∧
  records (run world_refused).1 =
    [ {| Pass := false; Score := 0; Messages := ["初期化が失敗しました"];
         Language := "" |} ].
Proof.
  pose proof (refused_initialize_reported world_refused
                {| StatusCode := 500; Body := "" |}
                eq_refl eq_refl eq_refl eq_refl eq_refl) as H.
  destruct H as (H1 & _ & _ & H4); [discriminate|].
  split; [exact H1|]. apply H4. reflexivity.
Defined.

(** X10: with --pretest-only no benchmarker is built or run, the counters
    are never frozen or read, no final check runs and no result file is
    written; a record, if any, is a failure record. *)
Theorem pretest_only_stops_after_pretest (w : World) :
  w_pretestOnly w = true →
  (ENewBenchmarker ∉ (run w).1) ∧
  (EBenchmarkerRun ∉ (run w).1) ∧
  (EDoneCounter ∉ (run w).1) ∧
  (∀ r, EFinalcheck r ∉ (run w).1) ∧
  (∀ e, e ∈ (run w).1 → isCounterRead e = false) ∧
  resultFile (run w).1 = [] ∧
  (∀ r, r ∈ records (run w).1 → Pass r = false).
Proof.
  intros Honly. run_unfold. rewrite Honly.
  repeat case_match; simplify_eq/=.
  all: split_and!; [not_listed|not_listed|not_listed|intros r; not_listed
                   | |done| ].
  all: try (intros e He; in_listed He; by subst).
  all: intros r Hr; in_listed Hr; by subst.
Qed.

Lemma pretest_only_stops_after_pretest_witness :
  (EBenchmarkerRun ∉ (run world_pretest_only).1) ∧
  resultFile (run world_pretest_only).1 = [].
Proof.
  pose proof (pretest_only_stops_after_pretest world_pretest_only eq_refl)
    as (_ & H2 & _ & _ & _ & H6 & _).
  split; [exact H2|exact H6].
Defined.

(** X11: every error exit has status 1.  Its error is that of a logger
    that could not be set up, before anything else happened; or it comes
    right after a failure record was printed; or the final check had
    passed and the error is that of marshalling the passing result or, the
    marshalling done, of writing it. *)
Theorem error_exit_has_verdict (w : World) (err : error) (code : Z) :
  (run w).2 = ExitError err code →
  code = 1 ∧
  ((w_staffLogger_err w = Some err ∧ (run w).1 = []) ∨
   (w_contestantLogger_err w = Some err ∧ (run w).1 = []) ∨
   (∃ e, last (run w).1 = Some e ∧ failureEmission e) ∨
   (∃ resp,
      Initialize (w_agent w) = (Some resp, None) ∧
      w_finalcheck_err w = None ∧
      (∃ r, EFinalcheck r ∈ (run w).1) ∧
      (w_marshal_err w (passingResult w (IR_Language resp)) = Some err ∨
       (w_marshal_err w (passingResult w (IR_Language resp)) = None ∧
        w_writeFile_err w = Some err)))).
Proof.
  run_cases; intros Hout; simplify_eq; (split; [done|]).
  all: first
    [ by left
    | by right; left
    | right; right; left; eexists; split; [reflexivity|done]
    | right; right; right; eexists; split; [done|]; split; [done|];
      split; [eexists; listed|]; first [by left|by right] ].
Qed.

Lemma error_exit_has_verdict_witness :
  ∃ e, last (run world_pretest_fails).1 = Some e ∧ failureEmission e.
Proof.
  destruct (error_exit_has_verdict world_pretest_fails
              "pretest: icon mismatch" 1 eq_refl)
    as (_ & [[H _]|[[H _]|[H|(resp & _ & _ & [r H] & _)]]]).
  - vm_compute in H. discriminate H.
  - vm_compute in H. discriminate H.
  - exact H.
  - exfalso. vm_compute in H. in_listed H.
Defined.

(** ** The order of the phases *)

Lemma phasesOrdered_app (p : Progress) (t1 t2 : list Event) :
  phasesOrdered p (t1 ++ t2) =
    phasesOrdered p t1 && phasesOrdered (foldl progressStep p t1) t2.
Proof.
  revert p. induction t1 as [|e t1 IH]; intros p; simpl; [done|].
  by rewrite IH, andb_assoc.
Qed.

Lemma progressStep_scenarioLog (p : Progress) (ls : list ScenarioLine) :
  foldl progressStep p (EScenarioLog <$> ls) = p.
Proof.
  induction ls as [|l ls IH]; simpl; [done|].
  by destruct p.
Qed.

Lemma phasesOrdered_scenarioLog (p : Progress) (ls : list ScenarioLine) :
  phasesOrdered p (EScenarioLog <$> ls) = true.
Proof.
  induction ls as [|l ls IH]; simpl; [done|]. by destruct p.
Qed.

Lemma phasesOrdered_at (p : Progress) (t1 : list Event) (e : Event)
    (t2 : list Event) :
  phasesOrdered p (t1 ++ e :: t2) = true →
  phaseGuard (foldl progressStep p t1) e = true.
Proof.
  rewrite phasesOrdered_app. simpl.
  intros H. apply andb_true_iff in H as [_ H].
  by apply andb_true_iff in H as [H _].
Qed.

(** What the flags of [progress] say about the trace. *)
Lemma progress_spec (t : list Event) :
  regPhase (progress t) = registryPhase t ∧
  (pretested (progress t) = true ↔ ∃ r, EPretest r ∈ t) ∧
  (benchmarked (progress t) = true ↔ EBenchmarkerRun ∈ t) ∧
  (finalchecked (progress t) = true ↔ ∃ r, EFinalcheck r ∈ t).
Proof.
  unfold progress, registryPhase.
  induction t as [|e t (IHr & IHp & IHb & IHf)] using rev_ind.
  - split_and!; [done|..]; (split; [done|]).
    + by intros [r' ?%elem_of_nil].
    + by intros ?%elem_of_nil.
    + by intros [r' ?%elem_of_nil].
  - rewrite !foldl_app. simpl. rewrite IHr. split_and!; [done|..].
    + transitivity ((∃ r', e = EPretest r') ∨ ∃ r', EPretest r' ∈ t).
      * rewrite <- IHp.
        destruct e; simpl;
          first [ split; [intros _; left; by eexists|done]
                | split; [by right|by intros [[r' ?]|?]] ].
      * split.
        -- intros [[r' ->]|[r' Hr]]; exists r'; apply elem_of_app;
             [right; by left|by left].
        -- intros [r' [Hr|Hr%list_elem_of_singleton]%elem_of_app]; eauto.
    + transitivity (e = EBenchmarkerRun ∨ EBenchmarkerRun ∈ t).
      * rewrite <- IHb.
        destruct e; simpl;
          first [ split; [intros _; by left|done]
                | split; [by right|by intros [?|?]] ].
      * rewrite elem_of_app, list_elem_of_singleton. split; intros [?|?]; eauto.
    + transitivity ((∃ r', e = EFinalcheck r') ∨ ∃ r', EFinalcheck r' ∈ t).
      * rewrite <- IHf.
        destruct e; simpl;
          first [ split; [intros _; left; by eexists|done]
                | split; [by right|by intros [[r' ?]|?]] ].
      * split.
        -- intros [[r' ->]|[r' Hr]]; exists r'; apply elem_of_app;
             [right; by left|by left].
        -- intros [r' [Hr|Hr%list_elem_of_singleton]%elem_of_app]; eauto.
Qed.

Lemma run_phasesOrdered (w : World) : phasesOrdered noProgress (run w).1 = true.
Proof.
  run_cases; try done.
  all: by rewrite phasesOrdered_app, phasesOrdered_scenarioLog,
            progressStep_scenarioLog.
Qed.

(** X12: in every run the pretest starts on an initialised, active
    registry; the timed phase starts after the pretest, on an active
    registry; the final check starts after the timed phase and after the
    registry was frozen; the result file is written after the final check;
    and no phase starts twice. *)
Theorem phases_in_order (w : World) (t1 : list Event) (e : Event)
    (t2 : list Event) :
  (run w).1 = t1 ++ e :: t2 →
  match e with
  | EPretest _ => registryPhase t1 = Active ∧ ∀ r, EPretest r ∉ t1
  | EBenchmarkerRun =>
      registryPhase t1 = Active ∧ (∃ r, EPretest r ∈ t1) ∧
      EBenchmarkerRun ∉ t1
  | EFinalcheck _ =>
      registryPhase t1 = Frozen ∧ EBenchmarkerRun ∈ t1 ∧
      ∀ r, EFinalcheck r ∉ t1
  | EWriteFile _ _ => ∃ r, EFinalcheck r ∈ t1
  | _ => True
  end.
Proof.
  intros Ht.
  pose proof (run_phasesOrdered w) as Hord. rewrite Ht in Hord.
  apply phasesOrdered_at in Hord. fold (progress t1) in Hord.
  destruct (progress_spec t1) as (Hr & Hp & Hb & Hf).
  unfold phaseGuard in Hord. rewrite Hr in Hord.
  destruct e; try done.
  - destruct (registryPhase t1); try done.
    split; [done|]. intros r' Hin.
    assert (pretested (progress t1) = true) as Hc by (apply Hp; eauto).
    by rewrite Hc in Hord.
  - destruct (registryPhase t1); try done.
    apply andb_true_iff in Hord as [H1 H2].
    split_and!; [done|by apply Hp|].
    intros Hin%Hb. by rewrite Hin in H2.
  - destruct (registryPhase t1); try done.
    apply andb_true_iff in Hord as [H1 H2].
    split_and!; [done|by apply Hb|].
    intros r' Hin.
    assert (finalchecked (progress t1) = true) as Hc by (apply Hf; eauto).
    by rewrite Hc in H2.
  - by apply Hf.
Qed.

Lemma phases_in_order_witness :
  registryPhase (take 11 (run world_ok).1) = Frozen ∧
  EBenchmarkerRun ∈ take 11 (run world_ok).1 ∧
  ∀ r, EFinalcheck r ∉ take 11 (run world_ok).1.
Proof.
  apply (phases_in_order world_ok (take 11 (run world_ok).1)
           (EFinalcheck {| ResolveAttempts := 10 |})
           (drop 12 (run world_ok).1)).
  vm_compute. reflexivity.
Defined.

(** ** The user handler *)

Import UserHandler.

(** C9: a registration whose name is pipe is answered with BadRequest and
    leaves the state as it was: no transaction is opened, no row is added
    and no command is run. *)
Theorem register_pipe_reserved {User : Type} (env : Env User) (st : State)
    (requestBody : string) (response : Response) (req : PostUserRequest) :
  fromJson env requestBody = Some req →
  req_name req = "pipe" →
  registerHandler env st requestBody response =
    (st, inr (HttpBadRequestException "the username 'pipe' is reserved")).
Proof.
  intros Hjson Hname. unfold registerHandler. rewrite Hjson.
  by rewrite bool_decide_eq_true_2.
Qed.

Lemma register_pipe_reserved_witness :
  registerHandler env_ok {| db := db_one_user; commands := [] |}
      "{name: pipe}" response_empty =
    ({| db := db_one_user; commands := [] |},
     inr (HttpBadRequestException "the username 'pipe' is reserved")).
Proof.
  apply (register_pipe_reserved env_ok _ _ _ req_pipe); reflexivity.
Defined.

Lemma find_none_iff {A} (f : A → bool) (l : list A) :
  List.find f l = None ↔ ∀ x, x ∈ l → f x = false.
Proof.
  induction l as [|a l IH]; simpl.
  - split; [by intros _ x ?%elem_of_nil|done].
  - destruct (f a) eqn:Ha.
    + split; [done|]. intros H. rewrite H in Ha; [done|left].
    + rewrite IH. split.
      * intros H x [->|?]%elem_of_cons; auto.
      * intros H x ?. apply H. by right.
Qed.

Lemma getHeader_withHeader (name value : string) (r : Response) :
  getHeader name (withHeader name value r) = [value].
Proof.
  unfold getHeader, withHeader. simpl. rewrite filter_app.
  rewrite filter_cons_True, filter_nil by (simpl; by apply bool_decide_eq_true_2).
  replace (filter _ (filter _ (headers r))) with (@nil (string * string)); [done|].
  induction (headers r) as [|h hs IH]; [done|].
  destruct (sameHeader h.1 name) eqn:Hh.
  - by rewrite (filter_cons_False _ h) by (by rewrite Hh).
  - rewrite (filter_cons_True _ h) by done.
    by rewrite (filter_cons_False _ h) by (by rewrite Hh).
Qed.

(** C10: with a valid session, a connection outside a transaction and no
    PDO failure, the icon request of an existing user without a row in
    icons is never answered with NotFound: it is answered with the contents
    of the fallback file and Content-Type image/jpeg when that file reads
    as a string PHP takes as true (neither empty nor the single character
    0), and with an internal server error otherwise. *)
Theorem getIcon_fallback {User : Type} (env : Env User) (d : DB)
    (params : gmap string string) (response : Response) (user : UserModel) :
  verifyUserSession env = None →
  inTransaction d = false →
  pdoFails env SelectUserByName = false →
  pdoFails env SelectIconByUserId = false →
  selectUserByName env (default "" (params !! "username")) d = Some user →
  (∀ icon, icon ∈ icons d → icon_userId icon ≠ id user) →
  (∀ message, (getIconHandler env d params response).2
                ≠ inr (HttpNotFoundException message)) ∧
  (∀ contents,
     fallbackImage env = Some contents → truthy contents = true →
     ∃ response',
       (getIconHandler env d params response).2 = inl response' ∧
       response' = withHeader "Content-Type" "image/jpeg"
                     (write contents response) ∧
       body response' = body response +:+ contents ∧
       getHeader "Content-Type" response' = ["image/jpeg"] ∧
       statusCode response' = statusCode response) ∧
  (fallbackImage env = None ∨
   (∃ contents, fallbackImage env = Some contents ∧ truthy contents = false) →
   (getIconHandler env d params response).2
     = inr (HttpInternalServerErrorException "failed to read fallback image")).
Proof.
  intros Hsession Htx Hq1 Hq2 Huser Hicons.
  assert (selectIconByUserId (id user) d = None) as Hnone.
  { unfold selectIconByUserId.
    replace (List.find _ (icons d)) with (@None IconRow); [done|].
    symmetry. apply find_none_iff. intros icon Hin.
    apply bool_decide_eq_false_2. by apply Hicons. }
  assert ((getIconHandler env d params response).2 =
            match fallbackImage env with
            | Some contents =>
                if truthy contents
                then inl (withHeader "Content-Type" "image/jpeg"
                            (write contents response))
                else inr (HttpInternalServerErrorException
                            "failed to read fallback image")
            | None => inr (HttpInternalServerErrorException
                             "failed to read fallback image")
            end) as Hrun.
  { unfold getIconHandler, beginTransaction. rewrite Hsession, Htx, Hq1.
    unfold selectUserByName in *. simpl. rewrite Huser, Hq2.
    unfold selectIconByUserId in *. simpl. rewrite Hnone.
    destruct (fallbackImage env) as [contents|]; [|done].
    by destruct (truthy contents). }
  rewrite Hrun. split_and!.
  - intros message. destruct (fallbackImage env) as [contents|]; [|done].
    by destruct (truthy contents).
  - intros contents -> ->. eexists. split; [done|]. split; [done|].
    split_and!; [done|apply getHeader_withHeader|done].
  - intros [->|(contents & -> & ->)]; done.
Qed.

Lemma getIcon_fallback_witness :
  ∃ response',
    (getIconHandler env_ok db_one_user {[ "username" := "isucon" ]}
       response_empty).2 = inl response' ∧
    response' = withHeader "Content-Type" "image/jpeg"
                  (write "JFIF no image" response_empty) ∧
    body response' = body response_empty +:+ "JFIF no image" ∧
    getHeader "Content-Type" response' = ["image/jpeg"] ∧
    statusCode response' = statusCode response_empty.
Proof.
  refine (proj1 (proj2 (getIcon_fallback env_ok db_one_user
                          {[ "username" := "isucon" ]} response_empty
                          {| id := 1; name := "isucon";
                             displayName := "ISUCON"; description := "";
                             hashedPassword := "$2y$04$x" |}
                          eq_refl eq_refl eq_refl eq_refl eq_refl _))
            "JFIF no image" eq_refl eq_refl).
  intros icon Hin. apply list_elem_of_singleton in Hin as ->. discriminate.
Defined.

(** ** More on the user handler *)

Lemma find_app_none {A} (f : A → bool) (l1 l2 : list A) :
  List.find f l1 = None → List.find f (l1 ++ l2) = List.find f l2.
Proof.
  induction l1 as [|a l1 IH]; simpl; [done|].
  destruct (f a); [done|exact IH].
Qed.

(** X13: a registration that is not for pipe and meets no failure appends
    one user row with the next id and the bcrypt hash of cost 4, one theme
    row for that id, runs pdnsutil add-record for the name, commits, and
    answers 201 with the filled user. *)
Theorem register_success {User : Type} (env : Env User) (st : State)
    (requestBody : string) (response : Response) (req : PostUserRequest)
    (user : User) :
  let newUser :=
    {| id := usersAutoIncrement (db st); name := req_name req;
       displayName := req_displayName req;
       description := req_description req;
       hashedPassword := password_hash env (req_password req) 4 |} in
  let command :=
    ["pdnsutil"; "add-record"; "u.isucon.dev"; req_name req; "A"; "30";
     powerDNSSubdomainAddress env] in
  let inserted :=
    {| users := users (db st) ++ [newUser];
       themes := themes (db st)
                   ++ [ {| theme_userId := usersAutoIncrement (db st);
                           darkMode := req_darkMode req |} ];
       icons := icons (db st);
       inTransaction := true;
       usersAutoIncrement := usersAutoIncrement (db st) + 1 |} in
  fromJson env requestBody = Some req →
  req_name req ≠ "pipe" →
  inTransaction (db st) = false →
  pdoFails env InsertUser = false →
  pdoFails env InsertTheme = false →
  execCommand env command = None →
  fillUserResponse env newUser inserted = Some user →
  registerHandler env st requestBody response =
    ({| db := commit inserted; commands := commands st ++ [command] |},
     inl (jsonResponse env response user 201)).
Proof.
  intros newUser command inserted Hjson Hname Htx Hu Ht Hcmd Hfill.
  subst newUser command inserted.
  unfold registerHandler, beginTransaction, BCRYPT_DEFAULT_COST.
  rewrite Hjson, bool_decide_eq_false_2, Htx, Hu by done. simpl.
  rewrite Ht, Hcmd. unfold insertTheme. simpl. by rewrite Hfill.
Qed.

Lemma register_success_witness :
  registerHandler env_alice {| db := db_one_user; commands := [] |}
      "{name: alice}" response_empty =
    ({| db :=
          {| users := users db_one_user
                        ++ [ {| id := 2; name := "alice";
                                displayName := "Alice";
                                description := "hello";
                                hashedPassword := "$2y$04$s3cret" |} ];
             themes := themes db_one_user
                         ++ [ {| theme_userId := 2; darkMode := true |} ];
             icons := icons db_one_user;
             inTransaction := false;
             usersAutoIncrement := 3 |};
        commands := [ ["pdnsutil"; "add-record"; "u.isucon.dev"; "alice";
                       "A"; "30"; "127.0.0.1"] ] |},
     inl {| statusCode := 201; headers := []; body := "" |}).
Proof.
  apply (register_success env_alice {| db := db_one_user; commands := [] |}
           "{name: alice}" response_empty req_alice ());
    first [reflexivity|discriminate].
Defined.

(** X14: registerHandler runs at most one command, the pdnsutil add-record
    for the requested name, which is never pipe, and only after a user row
    and a theme row were inserted. *)
Theorem register_runs_one_command {User : Type} (env : Env User) (st : State)
    (requestBody : string) (response : Response) :
  commands (registerHandler env st requestBody response).1 = commands st ∨
  ∃ req,
    fromJson env requestBody = Some req ∧
    req_name req ≠ "pipe" ∧
    commands (registerHandler env st requestBody response).1 =
      commands st ++ [ ["pdnsutil"; "add-record"; "u.isucon.dev";
                        req_name req; "A"; "30";
                        powerDNSSubdomainAddress env] ] ∧
    length (users (db (registerHandler env st requestBody response).1)) =
      S (length (users (db st))) ∧
    length (themes (db (registerHandler env st requestBody response).1)) =
      S (length (themes (db st))).
Proof.
  unfold registerHandler, beginTransaction.
  destruct (fromJson env requestBody) as [req|]; [|by left].
  case_bool_decide as Hname; [by left|].
  destruct (inTransaction (db st)); [by left|].
  destruct (pdoFails env InsertUser); [by left|]. simpl.
  destruct (pdoFails env InsertTheme); [by left|].
  destruct (execCommand env _); [by left|].
  right. exists req. split; [done|]. split; [done|].
  destruct (fillUserResponse env _ _); simpl;
    (split_and!; [done|..]); rewrite length_app; simpl; lia.
Qed.

(** X15: registerHandler commits exactly when it answers: after an
    exception the state is either untouched or holds a transaction that is
    still open. *)
Theorem register_commits_only_on_success {User : Type} (env : Env User)
    (st : State) (requestBody : string) (response : Response) :
  match (registerHandler env st requestBody response).2 with
  | inl _ =>
      inTransaction (db (registerHandler env st requestBody response).1) = false
  | inr _ =>
      (registerHandler env st requestBody response).1 = st ∨
      inTransaction (db (registerHandler env st requestBody response).1) = true
  end.
Proof.
  unfold registerHandler, beginTransaction.
  destruct (fromJson env requestBody) as [req|]; [|by left].
  case_bool_decide as Hname; [by left|].
  destruct (inTransaction (db st)); [by left|].
  destruct (pdoFails env InsertUser); [by right|]. simpl.
  destruct (pdoFails env InsertTheme); [by right|].
  destruct (execCommand env _); [by right|].
  destruct (fillUserResponse env _ _); simpl; [done|by right].
Qed.



Lemma selectIconByUserId_first (userId : Z) (d : DB)
    (earlier later : list IconRow) (img : string) :
  icons d = earlier ++ {| icon_userId := userId; image := img |} :: later →
  (∀ icon, icon ∈ earlier → icon_userId icon ≠ userId) →
  selectIconByUserId userId d = Some img.
Proof.
  intros Hicons Hearlier. unfold selectIconByUserId. rewrite Hicons.
  rewrite find_app_none.
  - simpl. by rewrite bool_decide_eq_true_2.
  - apply find_none_iff. intros icon Hin.
    apply bool_decide_eq_false_2. by apply Hearlier.
Qed.

Lemma getIcon_with_icon {User : Type} (env : Env User) (d : DB)
    (params : gmap string string) (response : Response) (user : UserModel)
    (img : string) :
  verifyUserSession env = None →
  inTransaction d = false →
  pdoFails env SelectUserByName = false →
  pdoFails env SelectIconByUserId = false →
  selectUserByName env (default "" (params !! "username")) d = Some user →
  selectIconByUserId (id user) d = Some img →
  (getIconHandler env d params response).2 =
    inl (withHeader "Content-Type" "image/jpeg" (write img response)).
Proof.
  intros Hsession Htx Hq1 Hq2 Huser Hicon.
  unfold getIconHandler, beginTransaction. rewrite Hsession, Htx, Hq1.
  unfold selectUserByName in *. simpl. rewrite Huser, Hq2.
  unfold selectIconByUserId in *. simpl. by rewrite Hicon.
Qed.

(** X17: for a user with rows in icons the answer is the image of the first
    such row, as stored, with Content-Type image/jpeg; the fallback file is
    not consulted. *)
Theorem getIcon_stored_icon {User : Type} (env : Env User) (d : DB)
    (params : gmap string string) (response : Response) (user : UserModel)
    (earlier later : list IconRow) (img : string) :
  verifyUserSession env = None →
  inTransaction d = false →
  pdoFails env SelectUserByName = false →
  pdoFails env SelectIconByUserId = false →
  selectUserByName env (default "" (params !! "username")) d = Some user →
  icons d = earlier ++ {| icon_userId := id user; image := img |} :: later →
  (∀ icon, icon ∈ earlier → icon_userId icon ≠ id user) →
  (getIconHandler env d params response).2 =
    inl (withHeader "Content-Type" "image/jpeg" (write img response)).
Proof.
  intros Hsession Htx Hq1 Hq2 Huser Hicons Hearlier.
  apply (getIcon_with_icon env d params response user); try done.
  by apply (selectIconByUserId_first _ _ earlier later).
Qed.


Lemma getIcon_stored_icon_witness :
  (getIconHandler env_ok db_with_icons {[ "username" := "isucon" ]}
     response_empty).2 =
    inl (withHeader "Content-Type" "image/jpeg"
           (write "old icon" response_empty)).
Proof.
  apply (getIcon_stored_icon env_ok db_with_icons
           {[ "username" := "isucon" ]} response_empty
           {| id := 1; name := "isucon"; displayName := "ISUCON";
              description := ""; hashedPassword := "$2y$04$x" |}
           []
           [ {| icon_userId := 7; image := "other user's icon" |};
             {| icon_userId := 1; image := "older icon" |} ]);
    try reflexivity.
  intros icon Hin. by apply elem_of_nil in Hin.
Defined.

(** X18: when no user row matches the requested name (also when the name
    is missing from the route), the answer is NotFound. *)
Theorem getIcon_unknown_user {User : Type} (env : Env User) (d : DB)
    (params : gmap string string) (response : Response) :
  verifyUserSession env = None →
  inTransaction d = false →
  pdoFails env SelectUserByName = false →
  (∀ u, u ∈ users d →
        nameMatches env (name u) (default "" (params !! "username")) = false) →
  (getIconHandler env d params response).2 =
    inr (HttpNotFoundException "not found user that has the given username").
Proof.
  intros Hsession Htx Hq1 Hnone.
  unfold getIconHandler, beginTransaction. rewrite Hsession, Htx, Hq1.
  unfold selectUserByName. simpl.
  replace (List.find _ (users d)) with (@None UserModel); [done|].
  symmetry. by apply find_none_iff.
Qed.

Lemma getIcon_unknown_user_witness :
  (getIconHandler env_ok db_one_user ∅ response_empty).2 =
    inr (HttpNotFoundException "not found user that has the given username").
Proof.
  apply (getIcon_unknown_user env_ok db_one_user ∅ response_empty);
    try reflexivity.
  intros u Hin. apply list_elem_of_singleton in Hin as ->. reflexivity.
Defined.

(** X19: getIconHandler never changes a table; called inside an open
    transaction it fails and leaves the connection as it was; and once the
    session is verified it leaves a transaction open, since it begins one
    and never commits. *)
Theorem getIcon_reads_only {User : Type} (env : Env User) (d : DB)
    (params : gmap string string) (response : Response) :
  users (getIconHandler env d params response).1 = users d ∧
  themes (getIconHandler env d params response).1 = themes d ∧
  icons (getIconHandler env d params response).1 = icons d ∧
  usersAutoIncrement (getIconHandler env d params response).1
    = usersAutoIncrement d ∧
  (inTransaction d = true →
   (getIconHandler env d params response).1 = d ∧
   ∀ r, (getIconHandler env d params response).2 ≠ inl r) ∧
  (verifyUserSession env = None →
   inTransaction (getIconHandler env d params response).1 = true).
Proof.
  unfold getIconHandler, beginTransaction.
  destruct (verifyUserSession env) as [e|]; [by split_and!|].
  destruct (inTransaction d) eqn:Htx; [by split_and!|].
  repeat case_match; simplify_eq/=; by split_and!.
Qed.

(** The state [postIconHandler] commits when nothing fails. *)
Lemma postIcon_committed {User : Type} (env : Env User) (senv : SessionEnv User)
    (d : DB) (requestBody : string) (response : Response) (img : string) :
  verifyUserSession env = None →
  iconFromJson senv requestBody = Some img →
  inTransaction d = false →
  sessionPdoFails senv DeleteIcons = false →
  sessionPdoFails senv InsertIcon = false →
  ∃ iconId,
    postIconHandler env senv d requestBody response =
      ({| users := users d; themes := themes d;
          icons := filter (λ i, icon_userId i ≠ sessionUserId senv) (icons d)
                     ++ [ {| icon_userId := sessionUserId senv;
                             image := img |} ];
          inTransaction := false;
          usersAutoIncrement := usersAutoIncrement d |},
       inl (jsonIconResponse senv response iconId 201)).
Proof.
  intros Hsession Hjson Htx Hdel Hins.
  unfold postIconHandler, beginTransaction.
  rewrite Hsession, Hjson, Htx, Hdel, Hins. by eexists.
Qed.

Lemma icons_of_user_after_delete (userId : Z) (l : list IconRow) :
  filter (λ i, icon_userId i = userId)
    (filter (λ i, icon_userId i ≠ userId) l) = [].
Proof.
  induction l as [|i l IH]; [done|].
  rewrite (filter_cons (λ i, icon_userId i ≠ userId)).
  destruct (decide (icon_userId i ≠ userId)) as [Hne|Heq]; [|exact IH].
  rewrite filter_cons. by destruct (decide (icon_userId i = userId)).
Qed.

Lemma icons_of_others_after_delete (userId : Z) (l : list IconRow) :
  filter (λ i, icon_userId i ≠ userId)
    (filter (λ i, icon_userId i ≠ userId) l) =
  filter (λ i, icon_userId i ≠ userId) l.
Proof.
  induction l as [|i l IH]; [done|].
  rewrite (filter_cons (λ i, icon_userId i ≠ userId) i l).
  destruct (decide (icon_userId i ≠ userId)) as [Hne|Heq]; [|exact IH].
  rewrite filter_cons. rewrite decide_True by done. by rewrite IH.
Qed.

(** X20: a successful upload leaves the session's user with exactly one
    icon row, the uploaded image, leaves the icons of all other users, the
    users and the themes as they were, commits, and answers 201. *)
Theorem postIcon_replaces_icon {User : Type} (env : Env User)
    (senv : SessionEnv User) (d : DB) (requestBody : string)
    (response : Response) (img : string) :
  verifyUserSession env = None →
  iconFromJson senv requestBody = Some img →
  inTransaction d = false →
  sessionPdoFails senv DeleteIcons = false →
  sessionPdoFails senv InsertIcon = false →
  let d' := (postIconHandler env senv d requestBody response).1 in
  filter (λ i, icon_userId i = sessionUserId senv) (icons d') =
    [ {| icon_userId := sessionUserId senv; image := img |} ] ∧
  filter (λ i, icon_userId i ≠ sessionUserId senv) (icons d') =
    filter (λ i, icon_userId i ≠ sessionUserId senv) (icons d) ∧
  users d' = users d ∧ themes d' = themes d ∧
  inTransaction d' = false ∧
  ∃ iconId, (postIconHandler env senv d requestBody response).2 =
              inl (jsonIconResponse senv response iconId 201).
Proof.
  intros Hsession Hjson Htx Hdel Hins d'.
  destruct (postIcon_committed env senv d requestBody response img)
    as [iconId Hrun]; try done.
  subst d'. rewrite Hrun. simpl. split_and!; try done; [| |by eexists].
  - rewrite filter_app, icons_of_user_after_delete.
    by rewrite filter_cons_True by done.
  - rewrite filter_app, icons_of_others_after_delete.
    rewrite filter_cons_False by (by intros ?).
    by rewrite filter_nil, app_nil_r.
Qed.

Lemma postIcon_replaces_icon_witness :
  filter (λ i, icon_userId i = 1)
    (icons (postIconHandler env_ok senv_user1 db_with_icons "new icon"
              response_empty).1) =
    [ {| icon_userId := 1; image := "new icon" |} ].
Proof.
  apply (postIcon_replaces_icon env_ok senv_user1 db_with_icons "new icon"
           response_empty "new icon"); reflexivity.
Defined.

(** X21: an icon uploaded by a user is what a later icon request for that
    user returns, byte for byte, whatever icons the user had before. *)
Theorem postIcon_then_getIcon {User : Type} (env : Env User)
    (senv : SessionEnv User) (d : DB) (requestBody : string)
    (response : Response) (img : string) (params : gmap string string)
    (response2 : Response) (user : UserModel) :
  verifyUserSession env = None →
  iconFromJson senv requestBody = Some img →
  inTransaction d = false →
  sessionPdoFails senv DeleteIcons = false →
  sessionPdoFails senv InsertIcon = false →
  pdoFails env SelectUserByName = false →
  pdoFails env SelectIconByUserId = false →
  selectUserByName env (default "" (params !! "username")) d = Some user →
  id user = sessionUserId senv →
  (getIconHandler env
     (postIconHandler env senv d requestBody response).1 params response2).2 =
    inl (withHeader "Content-Type" "image/jpeg" (write img response2)).
Proof.
  intros Hsession Hjson Htx Hdel Hins Hq1 Hq2 Huser Hid.
  destruct (postIcon_committed env senv d requestBody response img)
    as [iconId Hrun]; try done.
  rewrite Hrun. simpl.
  apply (getIcon_with_icon env _ params response2 user); try done.
  apply (selectIconByUserId_first _ _
           (filter (λ i, icon_userId i ≠ sessionUserId senv) (icons d)) []).
  - simpl. by rewrite Hid.
  - intros icon [Hne _]%list_elem_of_filter. by rewrite Hid.
Qed.

Lemma postIcon_then_getIcon_witness :
  (getIconHandler env_ok
     (postIconHandler env_ok senv_user1 db_with_icons "new icon"
        response_empty).1
     {[ "username" := "isucon" ]} response_empty).2 =
    inl (withHeader "Content-Type" "image/jpeg"
           (write "new icon" response_empty)).
Proof.
  apply (postIcon_then_getIcon env_ok senv_user1 db_with_icons "new icon"
           response_empty "new icon" {[ "username" := "isucon" ]}
           response_empty
           {| id := 1; name := "isucon"; displayName := "ISUCON";
              description := ""; hashedPassword := "$2y$04$x" |});
    reflexivity.
Defined.

(** X22: postIconHandler never touches users or themes, and commits
    exactly when it answers: after an exception the connection is either
    untouched or holds a transaction that is still open. *)
Theorem postIcon_commits_only_on_success {User : Type} (env : Env User)
    (senv : SessionEnv User) (d : DB) (requestBody : string)
    (response : Response) :
  users (postIconHandler env senv d requestBody response).1 = users d ∧
  themes (postIconHandler env senv d requestBody response).1 = themes d ∧
  match (postIconHandler env senv d requestBody response).2 with
  | inl _ =>
      inTransaction (postIconHandler env senv d requestBody response).1 = false
  | inr _ =>
      (postIconHandler env senv d requestBody response).1 = d ∨
      inTransaction (postIconHandler env senv d requestBody response).1 = true
  end.
Proof.
  unfold postIconHandler, beginTransaction.
  destruct (verifyUserSession env) as [e'|]; [(simpl; repeat split; auto)|].
  destruct (iconFromJson senv requestBody) as [img|];
    [|(simpl; repeat split; auto)].
  destruct (inTransaction d) eqn:Htx; [(simpl; repeat split; auto)|].
  destruct (sessionPdoFails senv DeleteIcons); [(simpl; repeat split; auto)|].
  destruct (sessionPdoFails senv InsertIcon); (simpl; repeat split; auto).
Qed.



(** X24: for a session whose user id has no row in users, getMeHandler
    answers NotFound and leaves its transaction open. *)
Theorem getMe_unknown_user {User : Type} (env : Env User)
    (senv : SessionEnv User) (d : DB) (response : Response) :
  verifyUserSession env = None →
  inTransaction d = false →
  sessionPdoFails senv SelectUserById = false →
  (∀ u, u ∈ users d → id u ≠ sessionUserId senv) →
  (getMeHandler env senv d response).2 =
    inr (HttpNotFoundException
           "not found user that has the userid in session") ∧
  inTransaction (getMeHandler env senv d response).1 = true ∧
  users (getMeHandler env senv d response).1 = users d.
Proof.
  intros Hsession Htx Hq Hnone.
  unfold getMeHandler, beginTransaction. rewrite Hsession, Htx, Hq.
  unfold selectUserById. simpl.
  replace (List.find _ (users d)) with (@None UserModel); [done|].
  symmetry. apply find_none_iff. intros u Hin.
  apply bool_decide_eq_false_2. by apply Hnone.
Qed.

Lemma getMe_unknown_user_witness :
  (getMeHandler env_ok senv_user9 db_one_user response_empty).2 =
    inr (HttpNotFoundException
           "not found user that has the userid in session") ∧
  inTransaction (getMeHandler env_ok senv_user9 db_one_user
                   response_empty).1 = true ∧
  users (getMeHandler env_ok senv_user9 db_one_user response_empty).1
    = users db_one_user.
Proof.
  apply (getMe_unknown_user env_ok senv_user9 db_one_user response_empty);
    try reflexivity.
  intros u Hin. apply list_elem_of_singleton in Hin as ->. discriminate.
Defined.
